(** * The think/act tool-calling agent and the PowerShell session

    A shallow embedding of [app/agent/toolcall.py] (class [ToolCallAgent])
    and of [app/tool/powershell.py] (class [_PowerShellSession]), with the
    properties of their control flow that the specification states.

    Conventions.
    - Python text is a [string]; the newline character is [Py.newline].
    - A Python call either returns or raises: [Py.result].  The exception
      type ranges over subclasses of [Exception], the ones a bare
      [except Exception] catches.
    - Methods of the agent are computations in the monad [M], which threads
      the agent object and the outside world (language model, tools) and
      may raise.
    - Calls to [logger] change neither the agent nor any returned value and
      are left out. *)

From Stdlib Require Import String Ascii List ZArith Lia Bool.
From Stdlib Require Import Numbers.DecimalString.
Import ListNotations.
Open Scope string_scope.

(* ================================================================== *)
(** * Python values *)
(* ================================================================== *)

Module Py.

Definition newline : string := String "010"%char EmptyString.

(** Exception classes that occur in the two source files; [Exception]
    stands for any other subclass. *)
Inductive exn_class :=
| Exception
| ValueError
| IndexError
| AttributeError
| JSONDecodeError
| ToolError
| ProcessLookupError
| OSError.

(** An exception object: its class and [str(e)]. *)
Inductive exn := Exn (c : exn_class) (msg : string).

Inductive result (A : Type) :=
| Ok (a : A)
| Raise (e : exn).
Arguments Ok {A} a.
Arguments Raise {A} e.

(** Truth value of a [str]. *)
Definition truthy (s : string) : bool :=
  match s with EmptyString => false | String _ _ => true end.

(** Truth value of an [Optional[str]]. *)
Definition truthy_opt (s : option string) : bool :=
  match s with None => false | Some s => truthy s end.

(** [s or d] for an [Optional[str]] [s]. *)
Definition str_or (s : option string) (d : string) : string :=
  match s with
  | Some s => if truthy s then s else d
  | None => d
  end.

(** [sep.join(l)] *)
Definition join (sep : string) (l : list string) : string := String.concat sep l.

(** [x in l] for a list of [str]. *)
Definition str_in (x : string) (l : list string) : bool :=
  existsb (String.eqb x) l.

(** [l[-1]] *)
Definition last_item {A} (l : list A) : result A :=
  match rev l with
  | [] => Raise (Exn IndexError "list index out of range")
  | x :: _ => Ok x
  end.

End Py.

(* ================================================================== *)
(** * app/agent/toolcall.py *)
(* ================================================================== *)

Module ToolCallAgent.
Import Py.

Definition TOOL_CALL_REQUIRED : string := "Tool calls required but none provided".

(** Modelled from the spec: [AgentState] of [app.schema], "{Idle, Running,
    Finished, Error}". *)
Inductive AgentState := IDLE | RUNNING | FINISHED | ERROR.

(** [tool_choices: Literal["none", "auto", "required"]] *)
Inductive ToolChoice := none | auto | required.

(** Modelled from the spec: [ToolCall] of [app.schema], "id, function name,
    raw argument payload".  The source reads [command.id],
    [command.function.name] and [command.function.arguments]. *)
Record FunctionCall := { name : string; arguments : string }.
Record ToolCall := { id : string; function : FunctionCall }.

Inductive Role := system | user | assistant | tool.

(** Modelled from the spec: [Message] of [app.schema], "role in {system,
    user, assistant, tool}; text content (optional); tool_call_id
    (back-reference, tool-role only); tool name (tool-role only)", and the
    class methods the source calls to build one. *)
Module Message.

Record t := mk {
  role : Role;
  content : option string;
  tool_calls : option (list ToolCall);
  name : option string;
  tool_call_id : option string
}.

Definition user_message (c : string) : t := mk user (Some c) None None None.
Definition system_message (c : string) : t := mk system (Some c) None None None.
Definition assistant_message (c : option string) : t := mk assistant c None None None.
Definition tool_message (c : string) (call_id : string) (nm : string) : t :=
  mk tool (Some c) None (Some nm) (Some call_id).

End Message.

(** What [llm.ask_tool] returns.  The source probes both fields with
    [getattr(response, field, default)], so a field may be absent. *)
Inductive attr (A : Type) := Absent | Present (a : A).
Arguments Absent {A}.
Arguments Present {A} a.

Definition getattr {A} (x : attr A) (default : A) : A :=
  match x with Absent => default | Present a => a end.

Record Response := {
  resp_content : attr (option string);
  resp_tool_calls : attr (option (list ToolCall))
}.

(** The fields of a [ToolCallAgent] that [think], [act] and [execute_tool]
    read or write.  [messages] is the log held by [self.memory] (the
    property [self.messages] is the same list); [tool_map] lists the keys of
    [self.available_tools.tool_map]. *)
Record Agent := {
  system_prompt : string;
  next_step_prompt : string;
  tool_map : list string;
  tool_choices : ToolChoice;
  special_tool_names : list string;
  tool_calls : list ToolCall;
  messages : list Message.t;
  state : AgentState
}.

Definition set_messages (ms : list Message.t) (a : Agent) : Agent :=
  {| system_prompt := system_prompt a; next_step_prompt := next_step_prompt a;
     tool_map := tool_map a; tool_choices := tool_choices a;
     special_tool_names := special_tool_names a; tool_calls := tool_calls a;
     messages := ms; state := state a |}.

Definition set_tool_calls (cs : list ToolCall) (a : Agent) : Agent :=
  {| system_prompt := system_prompt a; next_step_prompt := next_step_prompt a;
     tool_map := tool_map a; tool_choices := tool_choices a;
     special_tool_names := special_tool_names a; tool_calls := cs;
     messages := messages a; state := state a |}.

Definition set_state (s : AgentState) (a : Agent) : Agent :=
  {| system_prompt := system_prompt a; next_step_prompt := next_step_prompt a;
     tool_map := tool_map a; tool_choices := tool_choices a;
     special_tool_names := special_tool_names a; tool_calls := tool_calls a;
     messages := messages a; state := s |}.

Definition ToolChoice_eqb (a b : ToolChoice) : bool :=
  match a, b with
  | none, none | auto, auto | required, required => true
  | _, _ => false
  end.

(** ** External collaborators

    Everything the agent calls that is not in the two source files: the
    language-model client, the tool registry, [json] and [str.lower]. *)
Class Collaborators := {
  (** the world outside the agent: the language model and whatever the
      tools act on *)
  W : Type;
  (** [json.loads]: the parsed value, or [None] for [json.JSONDecodeError] *)
  Json : Type;
  json_loads : string -> option Json;
  (** what a tool returns, with its truth value and its [str()] *)
  ToolOutput : Type;
  bool_of : ToolOutput -> bool;
  str_of : ToolOutput -> string;
  (** [self.available_tools.execute(name=..., tool_input=...)] *)
  execute : string -> Json -> W -> result ToolOutput * W;
  (** [self.llm.ask_tool(messages=..., system_msgs=..., tools=...,
      tool_choice=...)]; [tools] is the schema of the registered tools,
      here their names *)
  ask_tool :
    list Message.t -> option (list Message.t) -> list string -> ToolChoice ->
    W -> result Response * W;
  (** [Message.from_tool_calls(content=..., tool_calls=...)], which
      serialises every call; the source guards it with [try] *)
  from_tool_calls : option string -> list ToolCall -> result Message.t;
  (** [str.lower] *)
  lower : string -> string
}.

Section Agent.
Context `{Collaborators}.

(** ** The monad of agent methods *)

Definition St : Type := Agent * W.
Definition M (A : Type) : Type := St -> result A * St.

Definition ret {A} (a : A) : M A := fun s => (Ok a, s).
Definition raise {A} (e : exn) : M A := fun s => (Raise e, s).
Definition bind {A B} (m : M A) (k : A -> M B) : M B :=
  fun s => match m s with
           | (Ok a, s') => k a s'
           | (Raise e, s') => (Raise e, s')
           end.

(** [try: m except Exception as e: ...]: the outcome of [m] as a value.
    Whatever [m] did to the state before raising stays done. *)
Definition attempt {A} (m : M A) : M (result A) :=
  fun s => let (r, s') := m s in (Ok r, s').

Definition gets {A} (f : Agent -> A) : M A := fun s => (Ok (f (fst s)), s).
Definition modify (f : Agent -> Agent) : M unit :=
  fun s => (Ok tt, (f (fst s), snd s)).
Definition lift {A} (r : result A) : M A := fun s => (r, s).
Definition extern {A} (f : W -> result A * W) : M A :=
  fun s => let (r, w) := f (snd s) in (r, (fst s, w)).

Notation "x <- m ;; k" := (bind m (fun x => k))
  (at level 61, m at next level, right associativity).
Notation "m ;;; k" := (bind m (fun _ => k))
  (at level 61, right associativity).

(** Modelled from the spec: [Memory.add_message] of [app.schema], "append-only
    ordered log of conversation turns". *)
Definition add_message (m : Message.t) : M unit :=
  modify (fun a => set_messages (messages a ++ [m]) a).

(** ** _is_special_tool, _should_finish_execution, _handle_special_tool *)

Definition _is_special_tool (a : Agent) (nm : string) : bool :=
  str_in (lower nm) (map lower (special_tool_names a)).

Definition _should_finish_execution (nm : string) (r : ToolOutput) : bool := true.

Definition _handle_special_tool (nm : string) (r : ToolOutput) : M unit :=
  special <- gets (fun a => _is_special_tool a nm) ;;
  if negb special then ret tt
  else if _should_finish_execution nm r then modify (set_state FINISHED)
  else ret tt.

(** ** execute_tool *)

Definition invalid_command : string := "Error: Invalid command format".
Definition unknown_tool (nm : string) : string := "Error: Unknown tool '" ++ nm ++ "'".
Definition observed (nm : string) (out : string) : string :=
  "Observed output of cmd `" ++ nm ++ "` executed:" ++ newline ++ out.
Definition no_output (nm : string) : string :=
  "Cmd `" ++ nm ++ "` completed with no output".
Definition invalid_json (nm : string) : string :=
  "Error: " ++ ("Error parsing arguments for " ++ nm ++ ": Invalid JSON format").
Definition tool_problem (nm : string) (msg : string) : string :=
  "Error: " ++ ("⚠️ Tool '" ++ nm ++ "' encountered a problem: " ++ msg).

(** [command.function.arguments or "{}"], what goes to [json.loads]. *)
Definition payload (command : ToolCall) : string :=
  if truthy (arguments (function command)) then arguments (function command) else "{}".

(** What the two [except] clauses return: the first one catches
    [json.JSONDecodeError], the second one every other exception. *)
Definition error_observation (nm : string) (e : exn) : string :=
  match e with
  | Exn JSONDecodeError _ => invalid_json nm
  | Exn _ msg => tool_problem nm msg
  end.

(** The body of the [try] block of [execute_tool]. *)
Definition execute_tool_try (nm : string) (command : ToolCall) : M string :=
  args <- lift (match json_loads (payload command) with
                | Some j => Ok j
                | None => Raise (Exn JSONDecodeError "Expecting value")
                end) ;;
  r <- extern (execute nm args) ;;
  let observation := if bool_of r then observed nm (str_of r) else no_output nm in
  _handle_special_tool nm r ;;;
  ret observation.

(** [execute_tool].  Its first test is
    [not command or not command.function or not command.function.name];
    a [ToolCall] is an object with a [function], so what is left of it is
    the test of the name. *)
Definition execute_tool (command : ToolCall) : M string :=
  if negb (truthy (name (function command))) then ret invalid_command
  else
    let nm := name (function command) in
    known <- gets (fun a => str_in nm (tool_map a)) ;;
    if negb known then ret (unknown_tool nm)
    else
      r <- attempt (execute_tool_try nm command) ;;
      match r with
      | Ok observation => ret observation
      | Raise e => ret (error_observation nm e)
      end.

(** ** act *)

Definition no_content : string := "No content or commands to execute".

(** The [for command in self.tool_calls] loop, with the list [results] it
    appends to. *)
Fixpoint act_loop (cs : list ToolCall) (results : list string) : M (list string) :=
  match cs with
  | [] => ret results
  | command :: rest =>
      r <- execute_tool command ;;
      add_message (Message.tool_message r (id command) (name (function command))) ;;;
      act_loop rest (results ++ [r])
  end.

Definition act : M string :=
  calls <- gets tool_calls ;;
  match calls with
  | [] =>
      choice <- gets tool_choices ;;
      if ToolChoice_eqb choice required then raise (Exn ValueError TOOL_CALL_REQUIRED)
      else
        ms <- gets messages ;;
        m <- lift (last_item ms) ;;
        ret (str_or (Message.content m) no_content)
  | _ :: _ =>
      results <- act_loop calls [] ;;
      ret (join (newline ++ newline) results)
  end.

(** ** think *)

Definition llm_error_note : string := "I encountered an error processing your request".
Definition message_error_note : string := "I had trouble formulating my response".
Definition critical_error_note : string :=
  "I experienced a serious error while processing your request".

(** [self.tool_calls = getattr(response, 'tool_calls', None) or []] *)
Definition extract_tool_calls (response : Response) : list ToolCall :=
  match getattr (resp_tool_calls response) None with
  | Some (c :: cs) => c :: cs
  | _ => []
  end.

Definition no_calls (cs : list ToolCall) : bool :=
  match cs with [] => true | _ :: _ => false end.

(** The decision logic that ends [think], once the assistant message is
    recorded. *)
Definition think_decide (choice : ToolChoice) (calls : list ToolCall)
    (response : Response) : bool :=
  if ToolChoice_eqb choice required && no_calls calls then true
  else if ToolChoice_eqb choice auto then
    let has_content := truthy_opt (getattr (resp_content response) None) in
    if no_calls calls && has_content then true
    else if no_calls calls && negb has_content then false
    else negb (no_calls calls)
  else negb (no_calls calls).

(** [if self.next_step_prompt: self.messages += [user_msg]] *)
Definition add_next_step_prompt : M unit :=
  prompt <- gets next_step_prompt ;;
  if truthy prompt then add_message (Message.user_message prompt) else ret tt.

(** The call of the language model with its arguments. *)
Definition call_llm : M Response :=
  ms <- gets messages ;;
  sp <- gets system_prompt ;;
  tools <- gets tool_map ;;
  choice <- gets tool_choices ;;
  extern (ask_tool ms (if truthy sp then Some [Message.system_message sp] else None)
                   tools choice).

(** The inner [try] that builds and records the assistant message. *)
Definition record_assistant (calls : list ToolCall) (response : Response) : M unit :=
  m <- lift (match calls with
             | _ :: _ => from_tool_calls (getattr (resp_content response) (Some "")) calls
             | [] => Ok (Message.assistant_message
                           (getattr (resp_content response) (Some "No response generated")))
             end) ;;
  add_message m.

(** The body of the outer [try] of [think]. *)
Definition think_try : M bool :=
  add_next_step_prompt ;;;
  r <- attempt call_llm ;;
  match r with
  | Raise _ =>
      add_message (Message.assistant_message (Some llm_error_note)) ;;;
      ret false
  | Ok response =>
      let calls := extract_tool_calls response in
      modify (set_tool_calls calls) ;;;
      choice <- gets tool_choices ;;
      if ToolChoice_eqb choice none then
        if truthy_opt (getattr (resp_content response) None) then
          add_message (Message.assistant_message (getattr (resp_content response) None)) ;;;
          ret true
        else ret false
      else
        r2 <- attempt (record_assistant calls response) ;;
        match r2 with
        | Raise _ =>
            add_message (Message.assistant_message (Some message_error_note)) ;;;
            ret false
        | Ok _ => ret (think_decide choice calls response)
        end
  end.

(** The outer [try ... except Exception] of [think], around any body. *)
Definition think_guard (body : M bool) : M bool :=
  r <- attempt body ;;
  match r with
  | Ok b => ret b
  | Raise _ =>
      add_message (Message.assistant_message (Some critical_error_note)) ;;;
      ret false
  end.

Definition think : M bool := think_guard think_try.

(** ** Vocabulary of the statements *)

(** The agent as [think] leaves it once the next-step prompt is appended. *)
Definition prompted (a : Agent) : Agent :=
  if truthy (next_step_prompt a)
  then set_messages (messages a ++ [Message.user_message (next_step_prompt a)]) a
  else a.

(** The system messages [think] passes to the language model. *)
Definition system_msgs (a : Agent) : option (list Message.t) :=
  if truthy (system_prompt a) then Some [Message.system_message (system_prompt a)] else None.

(** The tool-role message [act] records for a call and its observation. *)
Definition tool_message_of (c : ToolCall) (obs : string) : Message.t :=
  Message.tool_message obs (id c) (name (function c)).

Definition tool_messages (cs : list ToolCall) (obs : list string) : list Message.t :=
  map (fun co => tool_message_of (fst co) (snd co)) (combine cs obs).

(** [runs_in_order cs s obs s']: from state [s], the calls [cs] are executed
    one after the other, each one in the state the previous one left with
    its tool message recorded; [obs] are their observations and [s'] is the
    final state. *)
Inductive runs_in_order : list ToolCall -> St -> list string -> St -> Prop :=
| runs_nil : forall s, runs_in_order [] s [] s
| runs_cons : forall c cs s o a1 w1 os s',
    execute_tool c s = (Ok o, (a1, w1)) ->
    runs_in_order cs (set_messages (messages a1 ++ [tool_message_of c o]) a1, w1) os s' ->
    runs_in_order (c :: cs) s (o :: os) s'.

(** [a'] has the configuration of [a]: the prompts, the registered tools,
    the policy and the terminating set. *)
Definition same_settings (a a' : Agent) : Prop :=
  system_prompt a' = system_prompt a /\
  next_step_prompt a' = next_step_prompt a /\
  tool_map a' = tool_map a /\
  tool_choices a' = tool_choices a /\
  special_tool_names a' = special_tool_names a.

(** Whether building the assistant message of a cycle succeeds. *)
Definition message_built (calls : list ToolCall) (response : Response) : bool :=
  match calls with
  | [] => true
  | _ :: _ =>
      match from_tool_calls (getattr (resp_content response) (Some "")) calls with
      | Ok _ => true
      | Raise _ => false
      end
  end.

End Agent.

End ToolCallAgent.

(* ================================================================== *)
(** * app/tool/powershell.py *)
(* ================================================================== *)

Module PowerShell.
Import Py.

(** ** Text operations the session uses *)

Fixpoint startswith (p s : string) : bool :=
  match p, s with
  | EmptyString, _ => true
  | String a p', String b s' => Ascii.eqb a b && startswith p' s'
  | String _ _, EmptyString => false
  end.

(** [s.find(sub)] as an option: the index of the first occurrence.  Both
    [sub in s] and [s.index(sub)] are read off it. *)
Fixpoint str_find (sub s : string) : option nat :=
  if startswith sub s then Some 0
  else match s with
       | EmptyString => None
       | String _ s' => option_map S (str_find sub s')
       end.

(** [s[:n]] *)
Fixpoint str_take (n : nat) (s : string) : string :=
  match n, s with
  | S n', String c s' => String c (str_take n' s')
  | _, _ => EmptyString
  end.

(** [s.endswith(suffix)] *)
Fixpoint endswith (suffix s : string) : bool :=
  String.eqb suffix s ||
  match s with
  | EmptyString => false
  | String _ s' => endswith suffix s'
  end.

(** [s[:-1]] *)
Fixpoint drop_last (s : string) : string :=
  match s with
  | EmptyString => EmptyString
  | String c EmptyString => EmptyString
  | String c s' => String c (drop_last s')
  end.

(** [if s.endswith("\n"): s = s[:-1]] *)
Definition strip_newline (s : string) : string :=
  if endswith newline s then drop_last s else s.

(** [str(n)] for an [int] *)
Definition str_of_int (n : Z) : string := NilZero.string_of_int (Z.to_int n).

(** ** The child process and the platform *)

Definition bytes : Type := list Byte.byte.

Definition nonempty (b : bytes) : bool :=
  match b with [] => false | _ :: _ => true end.

(** [os.name] is ['nt'] or not. *)
Inductive OsName := nt | posix.

Inductive Signal := SIGINT | CTRL_BREAK_EVENT.

(** What the session does to its child process, in order. *)
Inductive Interaction :=
| Write (data : bytes)
| Drain
| ReadStdout
| ReadStderr
| SendSignal (sig : Signal)
| Terminate.

(** An [asyncio.subprocess.Process] as the session sees it: its
    [returncode] and the interactions it has received, oldest first. *)
Record Process := {
  returncode : option Z;
  interactions : list Interaction
}.

Definition interact (i : Interaction) (p : Process) : Process :=
  {| returncode := returncode p; interactions := interactions p ++ [i] |}.

(** Python built-ins the module calls. *)
Class Builtins := {
  (** [str.encode('utf-16le')] *)
  encode : string -> bytes;
  (** [bytes.decode('utf-16le', errors='ignore')] *)
  decode : bytes -> string;
  (** [str.strip] and [str.lower] *)
  strip : string -> string;
  lower : string -> string
}.

(** What the outside does during one call: the platform, what spawning a
    shell gives, what the two pipes deliver in each round of the read loop
    before the time budget is used up, and the exception [send_signal] or
    [terminate] raises, if it raises. *)
Record Env := {
  os_name : OsName;
  spawn : result Process;
  polls : list (bytes * bytes);
  signal_error : option exn;
  terminate_error : option exn
}.

(** Modelled from the spec: [ToolResult] and its subclass [CLIResult] of
    [app.tool.base], a result with output text, error text and a system
    note; the source builds them with keyword arguments. *)
Inductive ResultClass := ToolResult_class | CLIResult_class.

Record ToolResult := {
  class : ResultClass;
  output : option string;
  error : option string;
  system : option string
}.

Definition CLIResult (out err : string) : ToolResult :=
  {| class := CLIResult_class; output := Some out; error := Some err; system := None |}.

(** ** _PowerShellSession *)

Definition _sentinel : string := "<<exit>>".

(** [str(self._timeout)] for [_timeout = 120.0] *)
Definition _timeout_str : string := "120.0".

Record Session := {
  _started : bool;
  _timed_out : bool;
  (** the attribute [_process] is unset until [start] *)
  _process : option Process
}.

Definition __init__ : Session :=
  {| _started := false; _timed_out := false; _process := None |}.

Definition set_process (p : Process) (s : Session) : Session :=
  {| _started := _started s; _timed_out := _timed_out s; _process := Some p |}.

Definition not_started : exn := Exn ToolError "Session has not started.".

Definition no_process : exn :=
  Exn AttributeError "'_PowerShellSession' object has no attribute '_process'".

Definition timed_out_error : exn :=
  Exn ToolError ("timed out: PowerShell has not returned in " ++ _timeout_str ++
                 " seconds and must be restarted").

Definition restart_required (rc : Z) : ToolResult :=
  {| class := ToolResult_class; output := None;
     error := Some ("PowerShell has exited with returncode " ++ str_of_int rc);
     system := Some "tool must be restarted" |}.

(** [self._process.send_signal(sig)] *)
Definition send_signal (E : Env) (sig : Signal) (p : Process) : result Process :=
  match signal_error E with
  | Some e => Raise e
  | None => Ok (interact (SendSignal sig) p)
  end.

(** The signal the platform calls for. *)
Definition interrupt_signal (E : Env) : Signal :=
  match os_name E with nt => CTRL_BREAK_EVENT | posix => SIGINT end.

Definition start (E : Env) (s : Session) : result unit * Session :=
  if _started s then (Ok tt, s)
  else match spawn E with
       | Raise e => (Raise e, s)
       | Ok p => (Ok tt, {| _started := true; _timed_out := _timed_out s; _process := Some p |})
       end.

Definition stop (E : Env) (s : Session) : result unit * Session :=
  if negb (_started s) then (Raise not_started, s)
  else match _process s with
       | None => (Raise no_process, s)
       | Some p =>
           match returncode p with
           | Some _ => (Ok tt, s)
           | None =>
               match terminate_error E with
               | Some e => (Raise e, s)
               | None => (Ok tt, set_process (interact Terminate p) s)
               end
           end
       end.

Section Run.
Context `{Builtins}.

(** The [while True] loop under [asyncio.timeout]: one element of [rounds]
    per round, what [stdout.read] and [stderr.read] return in it.  [None]
    is [asyncio.TimeoutError]: the budget ran out before the sentinel
    came. *)
Fixpoint read_loop (rounds : list (bytes * bytes)) (output error : string)
    (p : Process) : option (string * string) * Process :=
  match rounds with
  | [] => (None, p)
  | (stdout_buffer, stderr_buffer) :: rest =>
      let p1 := interact ReadStdout p in
      let output1 := if nonempty stdout_buffer
                     then output ++ decode stdout_buffer else output in
      match (if nonempty stdout_buffer then str_find _sentinel output1 else None) with
      | Some i => (Some (str_take i output1, error), p1)
      | None =>
          let p2 := interact ReadStderr p1 in
          let error1 := if nonempty stderr_buffer
                        then error ++ decode stderr_buffer else error in
          read_loop rest output1 error1 p2
      end
  end.

(** What [run] writes to the standard input of the shell. *)
Definition command_bytes (command : string) : bytes :=
  (encode command ++ encode ("; Write-Output '" ++ _sentinel ++ "'" ++ newline))%list.

(** [run].  The three [assert]s test stream objects of a process created
    with pipes and always pass. *)
Definition run (E : Env) (command : string) (s : Session) : result ToolResult * Session :=
  if negb (_started s) then (Raise not_started, s)
  else match _process s with
       | None => (Raise no_process, s)
       | Some p =>
           match returncode p with
           | Some rc => (Ok (restart_required rc), s)
           | None =>
               if _timed_out s then (Raise timed_out_error, s)
               else
                 let p1 := interact Drain (interact (Write (command_bytes command)) p) in
                 match read_loop (polls E) "" "" p1 with
                 | (Some (out, err), p2) =>
                     (Ok (CLIResult (strip_newline out) (strip_newline err)),
                      set_process p2 s)
                 | (None, p2) =>
                     let s1 := {| _started := _started s; _timed_out := true;
                                  _process := Some p2 |} in
                     match send_signal E (interrupt_signal E) p2 with
                     | Raise e => (Raise e, s1)
                     | Ok p3 => (Raise timed_out_error, set_process p3 s1)
                     end
                 end
           end
       end.

(** ** PowerShell.execute: the adapter that owns [_session] *)

Definition system_note (s : string) : ToolResult :=
  {| class := ToolResult_class; output := None; error := None; system := Some s |}.

Definition execute (E : Env) (command : option string) (restart : bool)
    (session : option Session) : result ToolResult * option Session :=
  if restart then
    match (match session with
           | Some s => let (r, s') := stop E s in (r, Some s')
           | None => (Ok tt, None)
           end) with
    | (Raise e, session') => (Raise e, session')
    | (Ok _, _) =>
        match start E __init__ with
        | (Raise e, s') => (Raise e, Some s')
        | (Ok _, s') => (Ok (system_note "tool has been restarted."), Some s')
        end
    end
  else
    match (match session with
           | Some s => (Ok tt, s)
           | None => start E __init__
           end) with
    | (Raise e, s) => (Raise e, Some s)
    | (Ok _, s) =>
        match command with
        | None => (Raise (Exn ToolError "no command provided."), Some s)
        | Some c =>
            if String.eqb (lower (strip c)) "ctrl+c" then
              match _process s with
              | None => (Raise no_process, Some s)
              | Some p =>
                  match returncode p with
                  | None =>
                      match send_signal E (interrupt_signal E) p with
                      | Raise e => (Raise e, Some s)
                      | Ok p' => (Ok (system_note "Interrupt signal sent to process."),
                                  Some (set_process p' s))
                      end
                  | Some _ =>
                      (Ok (system_note "No active process to interrupt."), Some s)
                  end
              end
            else let (r, s') := run E c s in (r, Some s')
        end
    end.

(** ** Vocabulary of the statements *)

(** The text one read adds: nothing for an empty buffer. *)
Definition buffer_text (b : bytes) : string :=
  if nonempty b then decode b else "".

(** The text accumulated from the buffers of a pipe. *)
Fixpoint accumulate (buffers : list bytes) : string :=
  match buffers with
  | [] => ""
  | b :: rest => buffer_text b ++ accumulate rest
  end.

Definition stdout_text (rounds : list (bytes * bytes)) : string :=
  accumulate (map fst rounds).

Definition stderr_text (rounds : list (bytes * bytes)) : string :=
  accumulate (map snd rounds).

(** A session on which [run] goes on to talk to the process. *)
Definition ready (s : Session) (p : Process) : Prop :=
  _started s = true /\ _process s = Some p /\ returncode p = None /\ _timed_out s = false.

(** An instance that was started and has timed out. *)
Definition flagged (s : Session) : Prop :=
  _started s = true /\ _timed_out s = true /\ exists p, _process s = Some p.

(** The outside notices that the child process has exited. *)
Definition process_exited (rc : Z) (s : Session) : Session :=
  match _process s with
  | Some p => set_process {| returncode := Some rc; interactions := interactions p |} s
  | None => s
  end.

(** The interactions of the read loop and of the timeout handler. *)
Definition reads_or_signals (i : Interaction) : bool :=
  match i with
  | ReadStdout | ReadStderr | SendSignal _ => true
  | Write _ | Drain | Terminate => false
  end.

(** The instance [start] makes of a fresh one and a spawned process. *)
Definition fresh (p : Process) : Session :=
  {| _started := true; _timed_out := false; _process := Some p |}.

(** What can happen to a session instance: a call of one of its methods,
    or the exit of its child process. *)
Inductive event :=
| Run (E : Env) (command : string)
| Start (E : Env)
| Stop (E : Env)
| Exited (rc : Z).

Definition step (s : Session) (ev : event) : Session :=
  match ev with
  | Run E command => snd (run E command s)
  | Start E => snd (start E s)
  | Stop E => snd (stop E s)
  | Exited rc => process_exited rc s
  end.

(** The instance after a sequence of events. *)
Definition after (evs : list event) (s : Session) : Session := fold_left step evs s.

End Run.

End PowerShell.

(* ================================================================== *)
(** * Concrete collaborators, for running the model *)
(* ================================================================== *)

Module Demo.
Import Py.

(** [str.lower] on ASCII letters. *)
Definition lower_ascii (c : ascii) : ascii :=
  let n := nat_of_ascii c in
  if (65 <=? n)%nat && (n <=? 90)%nat then ascii_of_nat (n + 32) else c.

Fixpoint lower (s : string) : string :=
  match s with
  | EmptyString => EmptyString
  | String c s' => String (lower_ascii c) (lower s')
  end.

(** A registry that accepts the empty JSON object only, with a tool that
    raises, a tool that reports and tools that stay silent; the world is
    the list of the tools run so far.  The language model answers in plain
    text as long as no tool has run and is unreachable afterwards. *)
Definition json_loads (s : string) : option string :=
  if String.eqb s "{}" then Some s else None.

Definition tool_execute (nm : string) (args : string) (w : list string)
    : result string * list string :=
  if String.eqb nm "boom" then (Raise (Exn Exception "kaput"), (w ++ [nm])%list)
  else if String.eqb nm "terminate" then (Ok "done", (w ++ [nm])%list)
  else (Ok "", (w ++ [nm])%list).

Definition ask_tool (ms : list ToolCallAgent.Message.t)
    (sys : option (list ToolCallAgent.Message.t)) (tools : list string)
    (choice : ToolCallAgent.ToolChoice) (w : list string)
    : result ToolCallAgent.Response * list string :=
  match w with
  | [] => (Ok {| ToolCallAgent.resp_content := ToolCallAgent.Present (Some "hello");
                 ToolCallAgent.resp_tool_calls := ToolCallAgent.Present None |}, w)
  | _ :: _ => (Raise (Exn Exception "connection refused"), w)
  end.

Definition from_tool_calls (c : option string) (cs : list ToolCallAgent.ToolCall)
    : result ToolCallAgent.Message.t :=
  Ok (ToolCallAgent.Message.mk ToolCallAgent.assistant c (Some cs) None None).

Definition collaborators : ToolCallAgent.Collaborators :=
  {| ToolCallAgent.W := list string;
     ToolCallAgent.Json := string;
     ToolCallAgent.json_loads := json_loads;
     ToolCallAgent.ToolOutput := string;
     ToolCallAgent.bool_of := truthy;
     ToolCallAgent.str_of := fun s => s;
     ToolCallAgent.execute := tool_execute;
     ToolCallAgent.ask_tool := ask_tool;
     ToolCallAgent.from_tool_calls := from_tool_calls;
     ToolCallAgent.lower := lower |}.

(** The same registry with a language model that always gives answer [r]. *)
Definition answering (r : ToolCallAgent.Response) : ToolCallAgent.Collaborators :=
  {| ToolCallAgent.W := list string;
     ToolCallAgent.Json := string;
     ToolCallAgent.json_loads := json_loads;
     ToolCallAgent.ToolOutput := string;
     ToolCallAgent.bool_of := truthy;
     ToolCallAgent.str_of := fun s => s;
     ToolCallAgent.execute := tool_execute;
     ToolCallAgent.ask_tool := fun _ _ _ _ w => (Ok r, w);
     ToolCallAgent.from_tool_calls := from_tool_calls;
     ToolCallAgent.lower := lower |}.

(** The same registry with a tool, [parse], that raises the exception of
    [json.loads] from inside. *)
Definition tool_execute_json (nm : string) (args : string) (w : list string)
    : result string * list string :=
  if String.eqb nm "parse" then (Raise (Exn JSONDecodeError "Expecting value"), w)
  else tool_execute nm args w.

Definition with_parser : ToolCallAgent.Collaborators :=
  {| ToolCallAgent.W := list string;
     ToolCallAgent.Json := string;
     ToolCallAgent.json_loads := json_loads;
     ToolCallAgent.ToolOutput := string;
     ToolCallAgent.bool_of := truthy;
     ToolCallAgent.str_of := fun s => s;
     ToolCallAgent.execute := tool_execute_json;
     ToolCallAgent.ask_tool := ask_tool;
     ToolCallAgent.from_tool_calls := from_tool_calls;
     ToolCallAgent.lower := lower |}.

Definition call (i nm args : string) : ToolCallAgent.ToolCall :=
  {| ToolCallAgent.id := i;
     ToolCallAgent.function := {| ToolCallAgent.name := nm; ToolCallAgent.arguments := args |} |}.

Definition agent (choice : ToolCallAgent.ToolChoice) (cs : list ToolCallAgent.ToolCall)
    (ms : list ToolCallAgent.Message.t) : ToolCallAgent.Agent :=
  {| ToolCallAgent.system_prompt := "You are an agent.";
     ToolCallAgent.next_step_prompt := "";
     ToolCallAgent.tool_map := ["echo"; "boom"; "terminate"];
     ToolCallAgent.tool_choices := choice;
     ToolCallAgent.special_tool_names := ["terminate"; "boom"];
     ToolCallAgent.tool_calls := cs;
     ToolCallAgent.messages := ms;
     ToolCallAgent.state := ToolCallAgent.RUNNING |}.

(** An answer with text and a call of the silent tool; one with neither. *)
Definition answer_with_call : ToolCallAgent.Response :=
  {| ToolCallAgent.resp_content := ToolCallAgent.Present (Some "on it");
     ToolCallAgent.resp_tool_calls :=
       ToolCallAgent.Present (Some [call "call_1" "echo" "{}"]) |}.

Definition answer_text : ToolCallAgent.Response :=
  {| ToolCallAgent.resp_content := ToolCallAgent.Present (Some "hello");
     ToolCallAgent.resp_tool_calls := ToolCallAgent.Present None |}.

Definition answer_empty : ToolCallAgent.Response :=
  {| ToolCallAgent.resp_content := ToolCallAgent.Present None;
     ToolCallAgent.resp_tool_calls := ToolCallAgent.Present None |}.

(** An agent whose registry also holds [parse]. *)
Definition agent_with_parser : ToolCallAgent.Agent :=
  {| ToolCallAgent.system_prompt := "You are an agent.";
     ToolCallAgent.next_step_prompt := "";
     ToolCallAgent.tool_map := ["echo"; "parse"];
     ToolCallAgent.tool_choices := ToolCallAgent.auto;
     ToolCallAgent.special_tool_names := ["Terminate"];
     ToolCallAgent.tool_calls := [];
     ToolCallAgent.messages := [];
     ToolCallAgent.state := ToolCallAgent.RUNNING |}.

(** An agent whose terminating set spells the tool with a capital. *)
Definition agent_capital : ToolCallAgent.Agent :=
  {| ToolCallAgent.system_prompt := "You are an agent.";
     ToolCallAgent.next_step_prompt := "What next?";
     ToolCallAgent.tool_map := ["echo"; "terminate"];
     ToolCallAgent.tool_choices := ToolCallAgent.auto;
     ToolCallAgent.special_tool_names := ["Terminate"];
     ToolCallAgent.tool_calls := [];
     ToolCallAgent.messages := [];
     ToolCallAgent.state := ToolCallAgent.RUNNING |}.

(** Three calls of one cycle: a silent tool, a tool that raises, the
    terminating tool. *)
Definition three_calls : list ToolCallAgent.ToolCall :=
  [call "call_1" "echo" "{}"; call "call_2" "boom" ""; call "call_3" "terminate" "{}"].

(** UTF-16LE for the characters below 256: the character, then a zero
    byte.  Decoding drops an odd byte at the end. *)
Fixpoint encode (s : string) : PowerShell.bytes :=
  match s with
  | EmptyString => []
  | String c s' => byte_of_ascii c :: Byte.x00 :: encode s'
  end.

Fixpoint decode (b : PowerShell.bytes) : string :=
  match b with
  | lo :: _ :: rest => String (ascii_of_byte lo) (decode rest)
  | _ => EmptyString
  end.

Definition is_space (c : ascii) : bool :=
  Ascii.eqb c " " || Ascii.eqb c "009" || Ascii.eqb c "010" || Ascii.eqb c "013".

Fixpoint lstrip (s : string) : string :=
  match s with
  | String c s' => if is_space c then lstrip s' else s
  | EmptyString => EmptyString
  end.

Fixpoint rstrip (s : string) : string :=
  match s with
  | EmptyString => EmptyString
  | String c s' =>
      match rstrip s' with
      | EmptyString => if is_space c then EmptyString else String c EmptyString
      | t => String c t
      end
  end.

Definition builtins : PowerShell.Builtins :=
  {| PowerShell.encode := encode;
     PowerShell.decode := decode;
     PowerShell.strip := fun s => rstrip (lstrip s);
     PowerShell.lower := lower |}.

Definition shell : PowerShell.Process :=
  {| PowerShell.returncode := None; PowerShell.interactions := [] |}.

(** A session as [start] leaves it. *)
Definition started : PowerShell.Session :=
  {| PowerShell._started := true; PowerShell._timed_out := false;
     PowerShell._process := Some shell |}.

(** The outside during one call on a POSIX host: what the pipes deliver and
    whether signalling fails. *)
Definition env (rounds : list (PowerShell.bytes * PowerShell.bytes))
    (sig : option exn) : PowerShell.Env :=
  {| PowerShell.os_name := PowerShell.posix;
     PowerShell.spawn := Ok shell;
     PowerShell.polls := rounds;
     PowerShell.signal_error := sig;
     PowerShell.terminate_error := None |}.

(** The pipes deliver [a], a newline and the sentinel line in one read. *)
Definition env_prints_a : PowerShell.Env :=
  env [(encode ("a" ++ newline ++ PowerShell._sentinel ++ newline), [])] None.

(** The sentinel comes in two pieces, with a warning on standard error in
    between. *)
Definition env_two_reads : PowerShell.Env :=
  env [(encode "a<<ex", encode "warn"); (encode ("it>>" ++ newline), [])] None.

(** Nothing comes before the budget ends; the signal is delivered. *)
Definition env_silent : PowerShell.Env := env [] None.

(** Nothing comes before the budget ends, and the process is gone when the
    signal is sent. *)
Definition env_gone : PowerShell.Env := env [] (Some (Exn ProcessLookupError "")).

(** No shell can be spawned. *)
Definition env_no_shell : PowerShell.Env :=
  {| PowerShell.os_name := PowerShell.posix;
     PowerShell.spawn := Raise (Exn OSError "powershell.exe: not found");
     PowerShell.polls := [];
     PowerShell.signal_error := None;
     PowerShell.terminate_error := None |}.

(** An instance that has timed out, with its process still running. *)
Definition timed_out_session : PowerShell.Session :=
  {| PowerShell._started := true; PowerShell._timed_out := true;
     PowerShell._process := Some shell |}.

(** An instance that has timed out and whose process has exited with
    status 1. *)
Definition exited_shell : PowerShell.Process :=
  {| PowerShell.returncode := Some 1%Z; PowerShell.interactions := [] |}.

Definition timed_out_and_exited : PowerShell.Session :=
  {| PowerShell._started := true; PowerShell._timed_out := true;
     PowerShell._process := Some exited_shell |}.

End Demo.

(* ================================================================== *)
(** * Properties of the agent *)
(* ================================================================== *)

Module AgentProofs.
Import Py ToolCallAgent.

Lemma str_in_In x l : str_in x l = true <-> In x l.
Proof.
  unfold str_in. rewrite existsb_exists. split.
  - intros [y [Hy Heq]]. apply String.eqb_eq in Heq. now subst.
  - intros Hx. exists x. split; [assumption | apply String.eqb_refl].
Qed.

Lemma last_item_app {A} (l : list A) (x : A) : last_item (l ++ [x]) = Ok x.
Proof. unfold last_item. now rewrite rev_app_distr. Qed.

Section WithCollaborators.
Context `{Collaborators}.

(** A name of the terminating set is special, whatever [str.lower] does. *)
Lemma In_special a nm : In nm (special_tool_names a) -> _is_special_tool a nm = true.
Proof.
  intros Hin. unfold _is_special_tool. apply str_in_In. now apply in_map.
Qed.

(** *** execute_tool, branch by branch *)

Lemma execute_tool_no_name command a w :
  truthy (name (function command)) = false ->
  execute_tool command (a, w) = (Ok invalid_command, (a, w)).
Proof. intros Hn. unfold execute_tool. now rewrite Hn. Qed.

Lemma execute_tool_unknown command a w :
  truthy (name (function command)) = true ->
  str_in (name (function command)) (tool_map a) = false ->
  execute_tool command (a, w) = (Ok (unknown_tool (name (function command))), (a, w)).
Proof.
  intros Hn Hk. unfold execute_tool. rewrite Hn. cbn.
  unfold bind, gets. cbn. now rewrite Hk.
Qed.

Lemma execute_tool_bad_json command a w :
  truthy (name (function command)) = true ->
  str_in (name (function command)) (tool_map a) = true ->
  json_loads (payload command) = None ->
  execute_tool command (a, w) = (Ok (invalid_json (name (function command))), (a, w)).
Proof.
  intros Hn Hk Hj. unfold execute_tool. rewrite Hn. cbn.
  unfold bind, gets. cbn. rewrite Hk. cbn.
  unfold attempt, execute_tool_try, bind, lift. fold (payload command).
  now rewrite Hj.
Qed.

Lemma execute_tool_raises command a w args e w' :
  truthy (name (function command)) = true ->
  str_in (name (function command)) (tool_map a) = true ->
  json_loads (payload command) = Some args ->
  execute (name (function command)) args w = (Raise e, w') ->
  execute_tool command (a, w)
  = (Ok (error_observation (name (function command)) e), (a, w')).
Proof.
  intros Hn Hk Hj He. unfold execute_tool. rewrite Hn. cbn.
  unfold bind, gets. cbn. rewrite Hk. cbn.
  unfold attempt, execute_tool_try, bind, lift, extern. fold (payload command).
  rewrite Hj. cbn. rewrite He. cbn.
  destruct e as [c msg]. now destruct c.
Qed.

Lemma execute_tool_returns command a w args r w' :
  truthy (name (function command)) = true ->
  str_in (name (function command)) (tool_map a) = true ->
  json_loads (payload command) = Some args ->
  execute (name (function command)) args w = (Ok r, w') ->
  execute_tool command (a, w)
  = (Ok (if bool_of r then observed (name (function command)) (str_of r)
         else no_output (name (function command))),
     (if _is_special_tool a (name (function command)) then set_state FINISHED a else a,
      w')).
Proof.
  intros Hn Hk Hj He. unfold execute_tool. rewrite Hn. cbn.
  unfold bind, gets. cbn. rewrite Hk. cbn.
  unfold attempt, execute_tool_try, bind, lift, extern. fold (payload command).
  rewrite Hj. cbn. rewrite He. cbn.
  unfold _handle_special_tool, bind, gets. cbn.
  destruct (_is_special_tool a (name (function command))); reflexivity.
Qed.

(** [execute_tool] returns, and touches nothing of the agent but [state]. *)
Lemma execute_tool_total command a w :
  exists obs a' w',
    execute_tool command (a, w) = (Ok obs, (a', w')) /\
    (a' = a \/ a' = set_state FINISHED a).
Proof.
  destruct (truthy (name (function command))) eqn:Hn.
  2:{ exists invalid_command, a, w. split; [now apply execute_tool_no_name | now left]. }
  destruct (str_in (name (function command)) (tool_map a)) eqn:Hk.
  2:{ eexists _, a, w. split; [now apply execute_tool_unknown | now left]. }
  destruct (json_loads (payload command)) as [args|] eqn:Hj.
  2:{ eexists _, a, w. split; [now apply execute_tool_bad_json | now left]. }
  destruct (execute (name (function command)) args w) as [[r|e] w'] eqn:He.
  - eexists _, _, w'. split; [now apply (execute_tool_returns _ _ _ args r w')|].
    destruct (_is_special_tool a (name (function command))); [now right | now left].
  - eexists _, a, w'. split; [now apply (execute_tool_raises _ _ _ args e w') | now left].
Qed.

(** *** The loop of act *)

Lemma nth_error_tool_messages cs : forall obs i c o,
  nth_error cs i = Some c -> nth_error obs i = Some o ->
  nth_error (tool_messages cs obs) i = Some (tool_message_of c o).
Proof.
  induction cs as [|c0 cs IH]; intros obs i c o Hc Ho.
  - destruct i; discriminate.
  - destruct obs as [|o0 obs]; [destruct i; discriminate|].
    destruct i as [|i]; cbn in *.
    + now inversion Hc; inversion Ho.
    + now apply IH.
Qed.

Lemma act_loop_spec cs : forall results a w,
  exists obs a' w',
    act_loop cs results (a, w) = (Ok (results ++ obs)%list, (a', w')) /\
    length obs = length cs /\
    runs_in_order cs (a, w) obs (a', w') /\
    messages a' = (messages a ++ tool_messages cs obs)%list.
Proof.
  induction cs as [|c cs IH]; intros results a w.
  - exists [], a, w. cbn. rewrite !app_nil_r. repeat split. constructor.
  - destruct (execute_tool_total c a w) as (o & a1 & w1 & Hex & Ha1).
    assert (Hm : messages a1 = messages a) by (destruct Ha1; now subst).
    destruct (IH (results ++ [o])%list
                 (set_messages (messages a1 ++ [tool_message_of c o]) a1) w1)
      as (obs & a' & w' & Hloop & Hlen & Hrun & Hmsgs).
    exists (o :: obs), a', w'. repeat split.
    + cbn [act_loop]. unfold bind at 1. rewrite Hex.
      unfold bind at 1. unfold add_message at 1, modify at 1. cbn [fst snd].
      unfold tool_message_of in Hloop. rewrite Hloop.
      now rewrite <- app_assoc.
    + cbn. now rewrite Hlen.
    + econstructor; eassumption.
    + rewrite Hmsgs. cbn [set_messages messages]. rewrite Hm.
      now rewrite <- app_assoc.
Qed.

(** [act] with pending calls returns what its loop collected. *)
Lemma act_pending a w c cs :
  tool_calls a = c :: cs ->
  act (a, w) =
  match act_loop (c :: cs) [] (a, w) with
  | (Ok results, s) => (Ok (join (newline ++ newline) results), s)
  | (Raise e, s) => (Raise e, s)
  end.
Proof.
  intros Hc. unfold act. unfold bind at 1. unfold gets at 1. cbn [fst].
  rewrite Hc. unfold bind. destruct (act_loop (c :: cs) [] (a, w)) as [[r|e] s]; reflexivity.
Qed.

(** C1.  With [N >= 1] pending tool calls, [act] returns; the calls are
    executed one after the other in the order of the list, each in the
    state the previous one left; Memory gains exactly [N] messages, the
    i-th one a tool-role message carrying the id and the function name of
    the i-th call and its observation; the value returned is the [N]
    observations joined by two newlines. *)
Theorem act_runs_calls_in_order a w :
  tool_calls a <> [] ->
  exists obs a' w',
    act (a, w) = (Ok (join (newline ++ newline) obs), (a', w')) /\
    length obs = length (tool_calls a) /\
    runs_in_order (tool_calls a) (a, w) obs (a', w') /\
    messages a' = (messages a ++ tool_messages (tool_calls a) obs)%list /\
    length (messages a') = length (messages a) + length (tool_calls a) /\
    forall i c o,
      nth_error (tool_calls a) i = Some c -> nth_error obs i = Some o ->
      nth_error (messages a') (length (messages a) + i)
      = Some (Message.mk tool (Some o) None (Some (name (function c))) (Some (id c))).
Proof.
  intros Hne. destruct (tool_calls a) as [|c cs] eqn:Hc; [congruence|].
  destruct (act_loop_spec (c :: cs) [] a w) as (obs & a' & w' & Hloop & Hlen & Hrun & Hm).
  exists obs, a', w'. repeat split; try assumption.
  - rewrite (act_pending a w c cs Hc), Hloop. reflexivity.
  - rewrite Hm, length_app. f_equal. unfold tool_messages.
    rewrite length_map, length_combine, Hlen. apply Nat.min_id.
  - intros i c0 o Hi Ho. rewrite Hm, nth_error_app2 by lia.
    replace (length (messages a) + i - length (messages a)) with i by lia.
    now apply nth_error_tool_messages.
Qed.

(** C3.  A call whose tool is registered, whose arguments parse and whose
    tool returns a value - any value - leaves the agent Finished when the
    tool's name is in [special_tool_names]. *)
Theorem special_tool_finishes command a w args r w' :
  truthy (name (function command)) = true ->
  str_in (name (function command)) (tool_map a) = true ->
  json_loads (payload command) = Some args ->
  execute (name (function command)) args w = (Ok r, w') ->
  In (name (function command)) (special_tool_names a) ->
  exists obs a',
    execute_tool command (a, w) = (Ok obs, (a', w')) /\
    state a' = FINISHED /\ a' = set_state FINISHED a.
Proof.
  intros Hn Hk Hj He Hs.
  rewrite (execute_tool_returns command a w args r w' Hn Hk Hj He).
  rewrite (In_special a _ Hs).
  eexists _, _. repeat split.
Qed.


(** C9.  When the tool of a call raises, [execute_tool] returns the error
    observation and the agent is as before, also for a tool of the
    terminating set; the agent's state changes only when the tool has
    returned a value. *)
Theorem special_tool_raising_keeps_state command a w args e w' :
  truthy (name (function command)) = true ->
  str_in (name (function command)) (tool_map a) = true ->
  json_loads (payload command) = Some args ->
  execute (name (function command)) args w = (Raise e, w') ->
  In (name (function command)) (special_tool_names a) ->
  execute_tool command (a, w)
  = (Ok (error_observation (name (function command)) e), (a, w')) /\
  (forall obs a1 w1,
     execute_tool command (a, w) = (Ok obs, (a1, w1)) -> state a1 = state a) /\
  (forall c0 obs a1 w1,
     execute_tool c0 (a, w) = (Ok obs, (a1, w1)) -> state a1 <> state a ->
     exists args0 r0,
       json_loads (payload c0) = Some args0 /\
       execute (name (function c0)) args0 w = (Ok r0, w1)).
Proof.
  intros Hn Hk Hj He Hs.
  pose proof (execute_tool_raises command a w args e w' Hn Hk Hj He) as Hex.
  split; [exact Hex|]. split.
  - intros obs a1 w1 Hex'. rewrite Hex in Hex'. now inversion Hex'.
  - intros c0 obs a1 w1 Hex' Hst.
    destruct (truthy (name (function c0))) eqn:Hn0.
    2:{ rewrite (execute_tool_no_name c0 a w Hn0) in Hex'. now inversion Hex'; subst. }
    destruct (str_in (name (function c0)) (tool_map a)) eqn:Hk0.
    2:{ rewrite (execute_tool_unknown c0 a w Hn0 Hk0) in Hex'. now inversion Hex'; subst. }
    destruct (json_loads (payload c0)) as [args0|] eqn:Hj0.
    2:{ rewrite (execute_tool_bad_json c0 a w Hn0 Hk0 Hj0) in Hex'.
        now inversion Hex'; subst. }
    destruct (execute (name (function c0)) args0 w) as [[r0|e0] w0] eqn:He0.
    + rewrite (execute_tool_returns c0 a w args0 r0 w0 Hn0 Hk0 Hj0 He0) in Hex'.
      inversion Hex'; subst. now exists args0, r0.
    + rewrite (execute_tool_raises c0 a w args0 e0 w0 Hn0 Hk0 Hj0 He0) in Hex'.
      now inversion Hex'; subst.
Qed.

(** *** think *)

Lemma add_next_step_prompt_eq a w :
  add_next_step_prompt (a, w) = (Ok tt, (prompted a, w)).
Proof.
  unfold add_next_step_prompt, prompted, bind, gets. cbn [fst].
  destruct (truthy (next_step_prompt a)); reflexivity.
Qed.

Lemma call_llm_eq a w :
  call_llm (a, w) =
  let (r, w') := ask_tool (messages a) (system_msgs a) (tool_map a) (tool_choices a) w in
  (r, (a, w')).
Proof. reflexivity. Qed.

Lemma prompted_fields a :
  system_msgs (prompted a) = system_msgs a /\
  tool_map (prompted a) = tool_map a /\
  tool_choices (prompted a) = tool_choices a.
Proof. unfold prompted, system_msgs. destruct (truthy (next_step_prompt a)); auto. Qed.

(** The state in which [think_try] is once the model has answered. *)
Lemma think_try_start a w :
  think_try (a, w) =
  match ask_tool (messages (prompted a)) (system_msgs a) (tool_map a) (tool_choices a) w with
  | (Raise _, w') =>
      (Ok false,
       (set_messages (messages (prompted a)
                      ++ [Message.assistant_message (Some llm_error_note)]) (prompted a), w'))
  | (Ok response, w') =>
      let calls := extract_tool_calls response in
      let a1 := set_tool_calls calls (prompted a) in
      if ToolChoice_eqb (tool_choices a) none then
        if truthy_opt (getattr (resp_content response) None) then
          (Ok true,
           (set_messages (messages a1 ++ [Message.assistant_message
                                            (getattr (resp_content response) None)]) a1, w'))
        else (Ok false, (a1, w'))
      else
        match record_assistant calls response (a1, w') with
        | (Raise _, (a2, w2)) =>
            (Ok false,
             (set_messages (messages a2
                            ++ [Message.assistant_message (Some message_error_note)]) a2, w2))
        | (Ok _, s2) => (Ok (think_decide (tool_choices a) calls response), s2)
        end
  end.
Proof.
  unfold think_try. unfold bind at 1. rewrite add_next_step_prompt_eq.
  unfold bind at 1. unfold attempt at 1. rewrite call_llm_eq.
  destruct (prompted_fields a) as (-> & -> & Hch). rewrite Hch.
  destruct (ask_tool _ _ _ _ w) as [[response|e] w']; [|reflexivity].
  cbv beta iota zeta.
  unfold bind at 1. unfold modify at 1. cbn [fst snd].
  unfold bind at 1. unfold gets at 1. cbn [fst].
  replace (tool_choices (set_tool_calls (extract_tool_calls response) (prompted a)))
    with (tool_choices a) by (now rewrite <- Hch).
  destruct (ToolChoice_eqb (tool_choices a) none).
  - destruct (truthy_opt (getattr (resp_content response) None)); reflexivity.
  - unfold bind at 1. unfold attempt at 1.
    destruct (record_assistant _ _ _) as [[u|e] [a2 w2]]; reflexivity.
Qed.

(** The outer handler turns any fault of any body into the failure note
    and the no-action signal. *)
Lemma think_guard_eq (body : M bool) s :
  think_guard body s =
  match body s with
  | (Ok b, s') => (Ok b, s')
  | (Raise _, (a1, w1)) =>
      (Ok false,
       (set_messages (messages a1
                      ++ [Message.assistant_message (Some critical_error_note)]) a1, w1))
  end.
Proof.
  unfold think_guard, bind, attempt.
  destruct (body s) as [[b|e] [a1 w1]]; reflexivity.
Qed.

Lemma think_try_total a w : exists b s', think_try (a, w) = (Ok b, s').
Proof.
  rewrite think_try_start.
  destruct (ask_tool _ _ _ _ w) as [[response|e] w']; [|eexists _, _; reflexivity].
  cbv zeta. destruct (ToolChoice_eqb (tool_choices a) none).
  - destruct (truthy_opt _); eexists _, _; reflexivity.
  - destruct (record_assistant _ _ _) as [[u|e] [a2 w2]]; eexists _, _; reflexivity.
Qed.

(** When [think] signals an action, it has recorded a message. *)
Lemma think_true_records a w a1 w1 :
  think (a, w) = (Ok true, (a1, w1)) -> exists ms m, messages a1 = (ms ++ [m])%list.
Proof.
  unfold think. rewrite think_guard_eq, think_try_start.
  destruct (ask_tool _ _ _ _ w) as [[response|e] w']; [|discriminate].
  cbv zeta. destruct (ToolChoice_eqb (tool_choices a) none).
  - destruct (truthy_opt _); [|discriminate].
    intros Heq. inversion Heq; subst. cbn. eauto.
  - unfold record_assistant, bind, lift, add_message, modify.
    destruct (match extract_tool_calls response with
              | [] => _
              | _ :: _ => _
              end) as [m|e]; [|discriminate].
    cbn [fst snd]. intros Heq. inversion Heq; subst. cbn. eauto.
Qed.

Lemma act_no_calls a w :
  tool_calls a = [] ->
  act (a, w) =
  if ToolChoice_eqb (tool_choices a) required
  then (Raise (Exn ValueError TOOL_CALL_REQUIRED), (a, w))
  else match last_item (messages a) with
       | Ok m => (Ok (str_or (Message.content m) no_content), (a, w))
       | Raise e => (Raise e, (a, w))
       end.
Proof.
  intros Hc. unfold act. unfold bind at 1. unfold gets at 1. cbn [fst]. rewrite Hc.
  unfold bind at 1. unfold gets at 1. cbn [fst].
  destruct (ToolChoice_eqb (tool_choices a) required); [reflexivity|].
  unfold bind, gets, lift. cbn [fst].
  destruct (last_item (messages a)); reflexivity.
Qed.

(** C4.  Without pending tool calls [act] raises the fixed error under
    [required]; under another policy it returns the text of the last
    message of Memory, or the placeholder when that text is missing or
    empty; and after a [think] under [auto] whose answer has no tool calls
    and a non-empty content, [act] returns that content. *)
Theorem act_without_tool_calls a w :
  (tool_calls a = [] -> tool_choices a = required ->
   act (a, w) = (Raise (Exn ValueError "Tool calls required but none provided"), (a, w))) /\
  (tool_calls a = [] -> tool_choices a <> required ->
   forall ms m, messages a = (ms ++ [m])%list ->
     (forall text, Message.content m = Some text -> truthy text = true ->
        act (a, w) = (Ok text, (a, w))) /\
     (truthy_opt (Message.content m) = false ->
        act (a, w) = (Ok "No content or commands to execute", (a, w)))) /\
  (tool_choices a = auto ->
   forall response w' text,
     ask_tool (messages (prompted a)) (system_msgs a) (tool_map a) auto w
       = (Ok response, w') ->
     extract_tool_calls response = [] ->
     resp_content response = Present (Some text) ->
     truthy text = true ->
     exists a1,
       think (a, w) = (Ok true, (a1, w')) /\
       tool_calls a1 = [] /\
       act (a1, w') = (Ok text, (a1, w'))) /\
  (forall a1 w1, think (a, w) = (Ok true, (a1, w1)) ->
     exists ms m, messages a1 = (ms ++ [m])%list).
Proof.
  split; [|split; [|split]]; [| | |apply think_true_records].
  - intros Hc Hreq. rewrite (act_no_calls a w Hc), Hreq. reflexivity.
  - intros Hc Hreq ms m Hm. rewrite (act_no_calls a w Hc).
    assert (Hneq : ToolChoice_eqb (tool_choices a) required = false)
      by (destruct (tool_choices a); [reflexivity | reflexivity | congruence]).
    rewrite Hneq, Hm, last_item_app. split.
    + intros text Ht Htr. rewrite Ht. unfold str_or. now rewrite Htr.
    + intros Hf. unfold str_or. destruct (Message.content m) as [t|]; [|reflexivity].
      cbn in Hf. now rewrite Hf.
  - intros Hauto response w' text Hask Hcalls Hcont Htr.
    eexists. split; [|split].
    + unfold think. rewrite think_guard_eq, think_try_start, Hauto, Hask.
      cbv zeta. cbn [ToolChoice_eqb]. rewrite Hcalls.
      unfold record_assistant, bind, lift, add_message, modify. cbn [fst snd].
      unfold think_decide. cbn [ToolChoice_eqb andb no_calls].
      rewrite Hcont. cbn [getattr truthy_opt]. rewrite Htr. reflexivity.
    + reflexivity.
    + rewrite act_no_calls by reflexivity.
      cbn [set_messages tool_choices messages set_tool_calls].
      destruct (prompted_fields a) as (_ & _ & ->). rewrite Hauto.
      cbn [ToolChoice_eqb]. rewrite last_item_app. cbn [Message.content Message.assistant_message].
      unfold str_or. now rewrite Htr.
Qed.

(** C6.  [think] returns for every agent and every behaviour of its
    collaborators.  When the language model raises, and when building the
    assistant message raises, [think] appends the matching assistant note
    to Memory and returns [False]; and whatever the guarded body is, a
    fault escaping it ends the same way, with the serious-error note. *)
Theorem think_never_raises a w :
  (exists b s', think (a, w) = (Ok b, s')) /\
  (forall e w',
     ask_tool (messages (prompted a)) (system_msgs a) (tool_map a) (tool_choices a) w
       = (Raise e, w') ->
     think (a, w)
     = (Ok false,
        (set_messages (messages (prompted a)
                       ++ [Message.assistant_message
                             (Some "I encountered an error processing your request")])
                      (prompted a), w'))) /\
  (forall response w' e,
     ask_tool (messages (prompted a)) (system_msgs a) (tool_map a) (tool_choices a) w
       = (Ok response, w') ->
     tool_choices a <> none ->
     extract_tool_calls response <> [] ->
     from_tool_calls (getattr (resp_content response) (Some ""))
                     (extract_tool_calls response) = Raise e ->
     think (a, w)
     = (Ok false,
        (set_messages (messages (prompted a)
                       ++ [Message.assistant_message
                             (Some "I had trouble formulating my response")])
                      (set_tool_calls (extract_tool_calls response) (prompted a)), w'))) /\
  (forall (body : M bool) e a1 w1,
     body (a, w) = (Raise e, (a1, w1)) ->
     think_guard body (a, w)
     = (Ok false,
        (set_messages (messages a1
                       ++ [Message.assistant_message
                             (Some "I experienced a serious error while processing your request")])
                      a1, w1))).
Proof.
  split; [|split; [|split]].
  - destruct (think_try_total a w) as (b & s' & Hb).
    exists b, s'. unfold think. now rewrite think_guard_eq, Hb.
  - intros e w' Hask. unfold think.
    now rewrite think_guard_eq, think_try_start, Hask.
  - intros response w' e Hask Hnone Hcalls Hfrom. unfold think.
    rewrite think_guard_eq, think_try_start, Hask. cbv zeta.
    assert (Hneq : ToolChoice_eqb (tool_choices a) none = false)
      by (destruct (tool_choices a); [congruence | reflexivity | reflexivity]).
    rewrite Hneq. unfold record_assistant, bind, lift.
    destruct (extract_tool_calls response) as [|c cs] eqn:Hc; [congruence|].
    rewrite Hfrom. reflexivity.
  - intros body e a1 w1 Hbody. now rewrite think_guard_eq, Hbody.
Qed.

End WithCollaborators.

(** *** The statements at concrete agents *)

Lemma act_runs_calls_in_order_witness :
  tool_calls (Demo.agent auto Demo.three_calls []) <> [] /\
  exists obs a' w',
    act (H := Demo.collaborators) (Demo.agent auto Demo.three_calls [], [])
    = (Ok (join (newline ++ newline) obs), (a', w')) /\
    length obs = 3 /\ length (messages a') = 3.
Proof.
  assert (Hne : tool_calls (Demo.agent auto Demo.three_calls []) <> []) by discriminate.
  split; [exact Hne|].
  destruct (act_runs_calls_in_order (H := Demo.collaborators)
              (Demo.agent auto Demo.three_calls []) [] Hne)
    as (obs & a' & w' & Hact & Hlen & _ & _ & Hmsgs & _).
  exists obs, a', w'. repeat split; assumption.
Defined.

Lemma special_tool_finishes_witness :
  exists obs a',
    execute_tool (H := Demo.collaborators) (Demo.call "call_3" "terminate" "{}")
                 (Demo.agent auto Demo.three_calls [], [])
    = (Ok obs, (a', ["terminate"])) /\
    state a' = FINISHED.
Proof.
  destruct (special_tool_finishes (H := Demo.collaborators)
              (Demo.call "call_3" "terminate" "{}")
              (Demo.agent auto Demo.three_calls []) [] "{}" "done" ["terminate"]
              eq_refl eq_refl eq_refl eq_refl (or_introl eq_refl))
    as (obs & a' & Hex & Hst & _).
  exists obs, a'. split; assumption.
Defined.

Lemma act_without_tool_calls_witness :
  exists a1,
    think (H := Demo.collaborators) (Demo.agent auto [] [], [])
    = (Ok true, (a1, [])) /\
    tool_calls a1 = [] /\
    act (H := Demo.collaborators) (a1, []) = (Ok "hello", (a1, [])).
Proof.
  destruct (act_without_tool_calls (H := Demo.collaborators) (Demo.agent auto [] []) [])
    as (_ & _ & Hthink & _).
  exact (Hthink eq_refl _ [] "hello" eq_refl eq_refl eq_refl eq_refl).
Defined.


Lemma think_never_raises_witness :
  think (H := Demo.collaborators) (Demo.agent auto [] [], ["echo"])
  = (Ok false,
     (Demo.agent auto []
        [Message.assistant_message (Some "I encountered an error processing your request")],
      ["echo"])).
Proof.
  destruct (think_never_raises (H := Demo.collaborators) (Demo.agent auto [] []) ["echo"])
    as (_ & Hllm & _).
  exact (Hllm (Exn Exception "connection refused") ["echo"] eq_refl).
Defined.

Lemma special_tool_raising_keeps_state_witness :
  execute_tool (H := Demo.collaborators) (Demo.call "call_2" "boom" "")
               (Demo.agent auto Demo.three_calls [], [])
  = (Ok "Error: ⚠️ Tool 'boom' encountered a problem: kaput",
     (Demo.agent auto Demo.three_calls [], ["boom"])).
Proof.
  exact (proj1 (special_tool_raising_keeps_state (H := Demo.collaborators)
                  (Demo.call "call_2" "boom" "")
                  (Demo.agent auto Demo.three_calls []) [] "{}"
                  (Exn Exception "kaput") ["boom"]
                  eq_refl eq_refl eq_refl eq_refl (or_intror (or_introl eq_refl)))).
Defined.

End AgentProofs.

(* ================================================================== *)
(** * Properties of the PowerShell session *)
(* ================================================================== *)

Module SessionProofs.
Import Py PowerShell.

(** ** Text *)

Lemma append_nil_r s : s ++ "" = s.
Proof. induction s as [|c s IH]; cbn; [reflexivity | now rewrite IH]. Qed.

Lemma append_assoc s t u : (s ++ t) ++ u = s ++ (t ++ u).
Proof. induction s as [|c s IH]; cbn; [reflexivity | now rewrite IH]. Qed.

Lemma length_append s t : String.length (s ++ t) = String.length s + String.length t.
Proof. induction s as [|c s IH]; cbn; [reflexivity | now rewrite IH]. Qed.

Lemma startswith_split p : forall s,
  startswith p s = true -> exists post, s = p ++ post.
Proof.
  induction p as [|a p IH]; intros s Hs.
  - now exists s.
  - destruct s as [|b s]; [discriminate|]. cbn in Hs.
    apply andb_prop in Hs as [Hab Hs]. apply Ascii.eqb_eq in Hab. subst b.
    destruct (IH s Hs) as [post ->]. now exists post.
Qed.

Lemma startswith_append p post : startswith p (p ++ post) = true.
Proof.
  induction p as [|a p IH]; cbn; [reflexivity|].
  now rewrite Ascii.eqb_refl, IH.
Qed.

Lemma startswith_app p : forall s t,
  startswith p s = true -> startswith p (s ++ t) = true.
Proof.
  intros s t Hs. destruct (startswith_split p s Hs) as [post ->].
  rewrite append_assoc. apply startswith_append.
Qed.

Lemma startswith_false_app p : forall s t,
  startswith p s = false -> String.length p <= String.length s ->
  startswith p (s ++ t) = false.
Proof.
  induction p as [|a p IH]; intros s t Hs Hlen; [discriminate|].
  destruct s as [|b s]; [cbn in Hlen; lia|].
  cbn in *. destruct (Ascii.eqb a b); [|reflexivity].
  cbn in *. apply IH; [assumption | lia].
Qed.

Lemma startswith_take p : forall n s,
  startswith p (str_take n s) = true -> startswith p s = true.
Proof.
  induction p as [|a p IH]; intros n s Hs; [reflexivity|].
  destruct n as [|n]; destruct s as [|b s]; try discriminate.
  cbn in *. apply andb_prop in Hs as [Hab Hs]. rewrite Hab. cbn. now apply (IH n).
Qed.

Lemma str_find_bound sub : forall s i,
  str_find sub s = Some i -> i + String.length sub <= String.length s.
Proof.
  induction s as [|c s IH]; intros i Hf; cbn [str_find] in Hf.
  - destruct (startswith sub "") eqn:Hp; [|discriminate].
    inversion Hf; subst. destruct sub; [cbn; lia | discriminate].
  - destruct (startswith sub (String c s)) eqn:Hp.
    + inversion Hf; subst. destruct (startswith_split _ _ Hp) as [post Hpost].
      rewrite Hpost, length_append. lia.
    + destruct (str_find sub s) as [j|] eqn:Hj; [|discriminate].
      cbn in Hf. inversion Hf; subst. specialize (IH j eq_refl). cbn. lia.
Qed.

Lemma str_find_app sub : forall s t i,
  str_find sub s = Some i -> str_find sub (s ++ t) = Some i.
Proof.
  induction s as [|c s IH]; intros t i Hf.
  - cbn [str_find] in Hf. destruct (startswith sub "") eqn:Hp; [|discriminate].
    inversion Hf; subst. destruct sub; [|discriminate].
    cbn. destruct t; reflexivity.
  - pose proof (str_find_bound sub _ _ Hf) as Hb.
    cbn [str_find] in Hf. cbn [append str_find].
    destruct (startswith sub (String c s)) eqn:Hp.
    + change (String c (s ++ t)) with (String c s ++ t).
      now rewrite (startswith_app _ _ t Hp).
    + destruct (str_find sub s) as [j|] eqn:Hj; [|discriminate].
      cbn in Hf. inversion Hf; subst.
      change (String c (s ++ t)) with (String c s ++ t).
      rewrite (startswith_false_app _ _ t Hp) by lia.
      now rewrite (IH t j eq_refl).
Qed.

Lemma str_find_none_prefix sub s t :
  str_find sub (s ++ t) = None -> str_find sub s = None.
Proof.
  intros Hn. destruct (str_find sub s) as [i|] eqn:Hf; [|reflexivity].
  rewrite (str_find_app sub s t i Hf) in Hn. discriminate.
Qed.

Lemma str_take_app : forall n s t, n <= String.length s -> str_take n (s ++ t) = str_take n s.
Proof.
  induction n as [|n IH]; intros s t Hn; [reflexivity|].
  destruct s as [|c s]; cbn in *; [lia|]. rewrite IH; [reflexivity | lia].
Qed.

(** The text found is the text up to the first occurrence, the occurrence
    and a rest. *)
Lemma str_find_split sub : forall s i,
  str_find sub s = Some i -> exists post, s = str_take i s ++ sub ++ post.
Proof.
  induction s as [|c s IH]; intros i Hf; cbn [str_find] in Hf.
  - destruct (startswith sub "") eqn:Hp; [|discriminate].
    inversion Hf; subst. destruct sub; [now exists "" | discriminate].
  - destruct (startswith sub (String c s)) eqn:Hp.
    + inversion Hf; subst. destruct (startswith_split _ _ Hp) as [post Hpost].
      exists post. now rewrite Hpost at 1.
    + destruct (str_find sub s) as [j|] eqn:Hj; [|discriminate].
      cbn in Hf. inversion Hf; subst. destruct (IH j eq_refl) as [post Hpost].
      exists post. cbn. now rewrite <- Hpost.
Qed.

(** No occurrence is left in the text before the first occurrence. *)
Lemma str_find_take sub : forall s i,
  sub <> "" -> str_find sub s = Some i -> str_find sub (str_take i s) = None.
Proof.
  intros s i Hne. revert i.
  induction s as [|c s IH]; intros i Hf; cbn [str_find] in Hf.
  - destruct (startswith sub "") eqn:Hp; [|discriminate].
    destruct sub; [congruence | discriminate].
  - destruct (startswith sub (String c s)) eqn:Hp.
    + inversion Hf; subst. cbn. destruct sub; [congruence | reflexivity].
    + destruct (str_find sub s) as [j|] eqn:Hj; [|discriminate].
      cbn in Hf. inversion Hf; subst. cbn [str_take str_find].
      destruct (startswith sub (String c (str_take j s))) eqn:Hp'.
      * apply (startswith_take sub (S j) (String c s)) in Hp'. congruence.
      * now rewrite (IH j eq_refl).
Qed.

Lemma endswith_newline_split : forall s,
  endswith newline s = true -> s = drop_last s ++ newline.
Proof.
  induction s as [|c s IH]; intros He; [discriminate|].
  cbn [endswith] in He. destruct (String.eqb_spec newline (String c s)) as [Heq|Hneq].
  - now rewrite <- Heq.
  - cbn in He. destruct s as [|d s]; [discriminate|].
    cbn [drop_last append]. f_equal. now apply IH.
Qed.

(** Stripping the line terminator leaves a prefix. *)
Lemma strip_newline_prefix s : exists x, s = strip_newline s ++ x.
Proof.
  unfold strip_newline. destruct (endswith newline s) eqn:He.
  - exists newline. now apply endswith_newline_split.
  - exists "". now rewrite append_nil_r.
Qed.

Lemma strip_newline_free sub s :
  str_find sub s = None -> str_find sub (strip_newline s) = None.
Proof.
  intros Hn. destruct (strip_newline_prefix s) as [x Hx].
  rewrite Hx in Hn. now apply str_find_none_prefix in Hn.
Qed.

Lemma str_take_all : forall s, str_take (String.length s) s = s.
Proof. induction s as [|c s IH]; cbn; [reflexivity | now rewrite IH]. Qed.

(** ** The sentinel *)

Lemma sentinel_not_empty : _sentinel <> "".
Proof. discriminate. Qed.

(** No end of the sentinel is a beginning of it: text that does not start
    with the sentinel does not start with it once a sentinel follows. *)
Lemma sentinel_no_border c t :
  c <> "" -> startswith _sentinel c = false ->
  startswith _sentinel (c ++ _sentinel ++ t) = false.
Proof.
  intros Hne Hs.
  destruct c as [|c1 [|c2 [|c3 [|c4 [|c5 [|c6 [|c7 [|c8 c]]]]]]]]; [congruence|..].
  8:{ apply startswith_false_app; [assumption | cbn; lia]. }
  all: unfold _sentinel; cbn [startswith append];
    repeat match goal with
           | |- context [Ascii.eqb ?a ?b] => is_var b; destruct (Ascii.eqb a b)
           end; reflexivity.
Qed.

(** In sentinel-free text followed by the sentinel, the first occurrence of
    the sentinel is the one that follows. *)
Lemma sentinel_first : forall c t,
  str_find _sentinel c = None ->
  str_find _sentinel (c ++ _sentinel ++ t) = Some (String.length c).
Proof.
  induction c as [|a c IH]; intros t Hf.
  - change ("" ++ _sentinel ++ t) with (_sentinel ++ t).
    destruct (_sentinel ++ t) eqn:Hs; [discriminate|].
    cbn [str_find]. rewrite <- Hs. now rewrite startswith_append.
  - cbn [str_find] in Hf.
    destruct (startswith _sentinel (String a c)) eqn:Hp; [discriminate|].
    destruct (str_find _sentinel c) as [j|] eqn:Hj; [discriminate|].
    change (String a c ++ _sentinel ++ t) with (String a (c ++ _sentinel ++ t)).
    cbn [str_find].
    change (String a (c ++ _sentinel ++ t)) with (String a c ++ _sentinel ++ t).
    rewrite (sentinel_no_border (String a c) t) by (assumption || discriminate).
    now rewrite (IH t eq_refl).
Qed.

Section WithBuiltins.
Context `{Builtins}.

(** ** The read loop *)

(** One round of the loop, as long as the sentinel has not come. *)
Lemma read_loop_round stdout_buffer stderr_buffer rest output error p :
  str_find _sentinel output = None ->
  read_loop ((stdout_buffer, stderr_buffer) :: rest) output error p =
  match str_find _sentinel (output ++ buffer_text stdout_buffer) with
  | Some i => (Some (str_take i (output ++ buffer_text stdout_buffer), error),
               interact ReadStdout p)
  | None => read_loop rest (output ++ buffer_text stdout_buffer)
                      (error ++ buffer_text stderr_buffer)
                      (interact ReadStderr (interact ReadStdout p))
  end.
Proof.
  intros Hf. cbn [read_loop]. unfold buffer_text.
  destruct (nonempty stdout_buffer), (nonempty stderr_buffer);
    rewrite ?append_nil_r, ?Hf; reflexivity.
Qed.

Lemma read_loop_spec rounds : forall output error p,
  str_find _sentinel output = None ->
  (str_find _sentinel (output ++ stdout_text rounds) = None ->
   exists p', read_loop rounds output error p = (None, p')) /\
  (forall i, str_find _sentinel (output ++ stdout_text rounds) = Some i ->
   exists k p',
     k < length rounds /\
     str_find _sentinel (output ++ stdout_text (firstn k rounds)) = None /\
     str_find _sentinel (output ++ stdout_text (firstn (S k) rounds)) = Some i /\
     read_loop rounds output error p
     = (Some (str_take i (output ++ stdout_text rounds),
              error ++ stderr_text (firstn k rounds)), p')).
Proof.
  induction rounds as [|[so se] rest IH]; intros output error p Hf.
  - unfold stdout_text. cbn. rewrite append_nil_r. split.
    + intros _. now exists p.
    + intros i Hi. congruence.
  - rewrite (read_loop_round so se rest output error p Hf).
    unfold stdout_text, stderr_text in *. cbn [map fst snd accumulate].
    rewrite <- append_assoc.
    destruct (str_find _sentinel (output ++ buffer_text so)) as [j|] eqn:Hj.
    + pose proof (str_find_app _ _ (accumulate (map fst rest)) _ Hj) as Hall.
      pose proof (str_find_bound _ _ _ Hj) as Hb.
      split; [intros Hn; congruence|].
      intros i Hi. rewrite Hall in Hi. inversion Hi; subst i.
      exists 0, (interact ReadStdout p). cbn [firstn map fst snd accumulate length].
      rewrite !append_nil_r. repeat split; try assumption; try lia.
      rewrite (str_take_app j (output ++ buffer_text so)) by lia. reflexivity.
    + destruct (IH (output ++ buffer_text so) (error ++ buffer_text se)
                   (interact ReadStderr (interact ReadStdout p)) Hj) as [IH1 IH2].
      split; [exact IH1|].
      intros i Hi. destruct (IH2 i Hi) as (k & p' & Hk & Hbefore & Hat & Hloop).
      exists (S k), p'. cbn [firstn map fst snd accumulate length].
      rewrite <- !append_assoc. repeat split; try assumption; lia.
Qed.

(** Reading does not change what the session knows of [returncode]. *)
Lemma read_loop_returncode rounds : forall output error p,
  returncode (snd (read_loop rounds output error p)) = returncode p.
Proof.
  induction rounds as [|[so se] rest IH]; intros output error p; [reflexivity|].
  cbn [read_loop].
  destruct (if nonempty so then str_find _sentinel _ else None); [reflexivity|].
  now rewrite IH.
Qed.

(** ** run *)

Lemma run_ready E command s p :
  ready s p ->
  run E command s =
  match read_loop (polls E) "" ""
          (interact Drain (interact (Write (command_bytes command)) p)) with
  | (Some (out, err), p2) =>
      (Ok (CLIResult (strip_newline out) (strip_newline err)), set_process p2 s)
  | (None, p2) =>
      match send_signal E (interrupt_signal E) p2 with
      | Raise e =>
          (Raise e, {| _started := true; _timed_out := true; _process := Some p2 |})
      | Ok p3 =>
          (Raise timed_out_error,
           {| _started := true; _timed_out := true; _process := Some p3 |})
      end
  end.
Proof.
  intros (Hst & Hp & Hrc & Hto). unfold run. rewrite Hst, Hp, Hrc, Hto. cbn [negb].
  destruct (read_loop _ _ _ _) as [[[out err]|] p2]; [reflexivity|].
  destruct (send_signal _ _ _); unfold set_process; cbn; reflexivity.
Qed.

(** A run whose budget ends before the sentinel has come. *)
Lemma run_timeout E command s p :
  ready s p ->
  str_find _sentinel (stdout_text (polls E)) = None ->
  exists p2,
    returncode p2 = None /\
    run E command s =
    match signal_error E with
    | Some e =>
        (Raise e, {| _started := true; _timed_out := true; _process := Some p2 |})
    | None =>
        (Raise timed_out_error,
         {| _started := true; _timed_out := true;
            _process := Some (interact (SendSignal (interrupt_signal E)) p2) |})
    end.
Proof.
  intros Hr Hn. rewrite (run_ready E command s p Hr).
  destruct (read_loop_spec (polls E) "" ""
              (interact Drain (interact (Write (command_bytes command)) p)) eq_refl)
    as [Hnone _].
  destruct (Hnone Hn) as [p2 Hloop]. rewrite Hloop. exists p2. split.
  - pose proof (read_loop_returncode (polls E) "" ""
                  (interact Drain (interact (Write (command_bytes command)) p))) as Hrc.
    rewrite Hloop in Hrc. cbn in Hrc. rewrite Hrc. now destruct Hr as (_ & _ & ? & _).
  - unfold send_signal. destruct (signal_error E); reflexivity.
Qed.

(** A run on an instance that has timed out or whose process has exited:
    nothing is asked of the process. *)
Lemma run_not_ready E command s p :
  _started s = true -> _process s = Some p ->
  (forall rc, returncode p = Some rc -> run E command s = (Ok (restart_required rc), s)) /\
  (returncode p = None -> _timed_out s = true ->
   run E command s = (Raise timed_out_error, s)).
Proof.
  intros Hst Hp. unfold run. rewrite Hst, Hp. cbn [negb]. split.
  - intros rc ->. reflexivity.
  - intros -> ->. reflexivity.
Qed.

(** ** The instance once it has timed out *)

Lemma run_flagged E command s p :
  _started s = true -> _timed_out s = true -> _process s = Some p ->
  run E command s
  = (match returncode p with
     | None => Raise timed_out_error
     | Some rc => Ok (restart_required rc)
     end, s).
Proof.
  intros Hst Hto Hp. destruct (run_not_ready E command s p Hst Hp) as [Hexit Hlive].
  destruct (returncode p) as [rc|]; [now apply Hexit | now apply Hlive].
Qed.

Ltac flagged_done :=
  unfold flagged; cbn;
  split; [assumption || reflexivity |
  split; [assumption || reflexivity | eexists; (eassumption || reflexivity)]].

Lemma step_flagged s ev : flagged s -> flagged (step s ev).
Proof.
  intros (Hst & Hto & p & Hp). destruct ev as [E c|E|E|rc]; cbn [step].
  - rewrite (run_flagged E c s p Hst Hto Hp). flagged_done.
  - unfold start. rewrite Hst. flagged_done.
  - unfold stop. rewrite Hst, Hp. cbn [negb].
    destruct (returncode p); [flagged_done|].
    destruct (terminate_error E); flagged_done.
  - unfold process_exited. rewrite Hp. flagged_done.
Qed.

Lemma after_flagged evs : forall s, flagged s -> flagged (after evs s).
Proof.
  unfold after. induction evs as [|ev evs IH]; intros s Hs; [exact Hs|].
  cbn [fold_left]. apply IH. now apply step_flagged.
Qed.

Lemma restart_fresh E command session r session' :
  execute E command true session = (Ok r, session') ->
  exists s', session' = Some s' /\ _started s' = true /\ _timed_out s' = false.
Proof.
  unfold execute.
  destruct (match session with
            | Some s => let (r0, s') := stop E s in (r0, Some s')
            | None => (Ok tt, None)
            end) as [[u|e] sess]; [|discriminate].
  unfold start, __init__. cbn.
  destruct (spawn E) as [p|e]; [|discriminate].
  intros Heq. inversion Heq; subst. eexists. repeat split.
Qed.

(** C7, as the code has it.  When the sentinel is in the text read from
    standard output within the budget, [run] returns a [CLIResult]: its
    output is the text before the first occurrence of the sentinel, its
    error text what standard error gave in the rounds before the sentinel
    was seen, each with one trailing newline removed, and the sentinel
    does not occur in the output.  So for a command whose output [out] is
    free of the sentinel, the output returned is [out] with one trailing
    newline removed: [out] itself exactly when it does not end in a
    newline. *)
Theorem run_returns_text_before_sentinel E command s p :
  ready s p ->
  (forall i, str_find _sentinel (stdout_text (polls E)) = Some i ->
     exists k p',
       k < length (polls E) /\
       str_find _sentinel (stdout_text (firstn k (polls E))) = None /\
       str_find _sentinel (stdout_text (firstn (S k) (polls E))) = Some i /\
       run E command s
       = (Ok (CLIResult (strip_newline (str_take i (stdout_text (polls E))))
                        (strip_newline (stderr_text (firstn k (polls E))))),
          set_process p' s) /\
       str_find _sentinel (strip_newline (str_take i (stdout_text (polls E)))) = None) /\
  (forall out rest,
     str_find _sentinel out = None ->
     stdout_text (polls E) = out ++ _sentinel ++ rest ->
     exists err p',
       run E command s = (Ok (CLIResult (strip_newline out) err), set_process p' s) /\
       str_find _sentinel (strip_newline out) = None /\
       (endswith newline out = false -> strip_newline out = out) /\
       (endswith newline out = true -> out = strip_newline out ++ newline)).
Proof.
  intros Hr.
  assert (Hfound : forall i, str_find _sentinel (stdout_text (polls E)) = Some i ->
     exists k p',
       k < length (polls E) /\
       str_find _sentinel (stdout_text (firstn k (polls E))) = None /\
       str_find _sentinel (stdout_text (firstn (S k) (polls E))) = Some i /\
       run E command s
       = (Ok (CLIResult (strip_newline (str_take i (stdout_text (polls E))))
                        (strip_newline (stderr_text (firstn k (polls E))))),
          set_process p' s)).
  { intros i Hi.
    destruct (read_loop_spec (polls E) "" ""
                (interact Drain (interact (Write (command_bytes command)) p)) eq_refl)
      as [_ Hsome].
    destruct (Hsome i Hi) as (k & p' & Hk & Hbefore & Hat & Hloop).
    exists k, p'. repeat split; try assumption.
    rewrite (run_ready E command s p Hr), Hloop. reflexivity. }
  split.
  - intros i Hi. destruct (Hfound i Hi) as (k & p' & Hk & Hbefore & Hat & Hrun).
    exists k, p'. repeat split; try assumption.
    apply strip_newline_free. now apply str_find_take; [apply sentinel_not_empty|].
  - intros out rest Hfree Htext.
    pose proof (sentinel_first out rest Hfree) as Hfirst. rewrite <- Htext in Hfirst.
    destruct (Hfound _ Hfirst) as (k & p' & _ & _ & _ & Hrun).
    rewrite Htext, str_take_app, str_take_all in Hrun by lia.
    eexists _, p'. split; [exact Hrun|]. split; [now apply strip_newline_free|].
    unfold strip_newline. split.
    + now intros ->.
    + intros He. rewrite He. now apply endswith_newline_split.
Qed.

(** The timeout handler of [run], case by case.  When the budget ends
    before the sentinel has come, the session is marked timed out first and
    the interrupt signal of the platform is sent.  If the signal is
    delivered, [run] raises the timed-out error, as the handler means to.
    If [send_signal] raises, the handler is left there and then: the
    [raise ToolError] that ends it is not reached and the exception of
    [send_signal] is what [run] raises.  That second case is a defect of
    the handler, not a behaviour to rely on. *)
Theorem run_timeout_sends_signal E command s p :
  ready s p ->
  str_find _sentinel (stdout_text (polls E)) = None ->
  exists p2,
    (signal_error E = None ->
     run E command s
     = (Raise timed_out_error,
        {| _started := true; _timed_out := true;
           _process := Some (interact (SendSignal (interrupt_signal E)) p2) |})) /\
    (forall e, signal_error E = Some e ->
     run E command s
     = (Raise e, {| _started := true; _timed_out := true; _process := Some p2 |})) /\
    _timed_out (snd (run E command s)) = true.
Proof.
  intros Hr Hn. destruct (run_timeout E command s p Hr Hn) as (p2 & _ & Hrun).
  exists p2. rewrite Hrun. repeat split.
  - now intros ->.
  - now intros e ->.
  - destruct (signal_error E); reflexivity.
Qed.

(** C2, as the code has it.  A run that uses up its budget leaves the
    instance started, timed out and with its process.  From then on,
    whatever is called on the instance and whether or not the process
    exits, the instance stays timed out, and every [run] leaves the
    instance and its process as they are: it raises the timed-out error
    while the process has not exited, and returns the restart-required
    result once it has.  A successful restart puts a fresh instance in
    place, which is not timed out. *)
Theorem timed_out_is_sticky E command s p :
  ready s p ->
  str_find _sentinel (stdout_text (polls E)) = None ->
  exists r s1,
    run E command s = (r, s1) /\
    _timed_out s1 = true /\
    (forall E' c', run E' c' s1 = (Raise timed_out_error, s1)) /\
    (forall evs E' c',
       _timed_out (after evs s1) = true /\
       exists p2,
         _process (after evs s1) = Some p2 /\
         run E' c' (after evs s1)
         = (match returncode p2 with
            | None => Raise timed_out_error
            | Some rc => Ok (restart_required rc)
            end, after evs s1)) /\
    (forall evs E' c' r' session',
       execute E' c' true (Some (after evs s1)) = (Ok r', session') ->
       exists s', session' = Some s' /\ _started s' = true /\ _timed_out s' = false).
Proof.
  intros Hr Hn. destruct (run_timeout E command s p Hr Hn) as (p2 & Hrc & Hrun).
  destruct (run E command s) as [r s1] eqn:Heq. exists r, s1.
  assert (Hs1 : flagged s1 /\ exists p1, _process s1 = Some p1 /\ returncode p1 = None).
  { destruct (signal_error E); inversion Hrun; subst; cbn.
    - split; [flagged_done | eexists; split; [reflexivity | assumption]].
    - split; [flagged_done | eexists; split; [reflexivity | assumption]]. }
  destruct Hs1 as ((Hst & Hto & _) & p1 & Hp1 & Hrc1).
  assert (Hfl : flagged s1) by (unfold flagged; eauto).
  split; [reflexivity|]. split; [assumption|]. split; [|split].
  - intros E' c'. rewrite (run_flagged E' c' s1 p1 Hst Hto Hp1), Hrc1. reflexivity.
  - intros evs E' c'.
    destruct (after_flagged evs s1 Hfl) as (Hst' & Hto' & q & Hq).
    split; [assumption|]. exists q. split; [assumption|].
    now apply run_flagged.
  - intros evs E' c' r' session'. apply restart_fresh.
Qed.

(** C10.  On an instance that is timed out and whose process has exited,
    [run] returns the restart-required result with the exit status: the
    test of [returncode] comes before the test of [_timed_out]. *)
Theorem exited_checked_before_timed_out E command s p rc :
  _started s = true -> _timed_out s = true ->
  _process s = Some p -> returncode p = Some rc ->
  run E command s
  = (Ok {| class := ToolResult_class; output := None;
           error := Some ("PowerShell has exited with returncode " ++ str_of_int rc);
           system := Some "tool must be restarted" |}, s) /\
  fst (run E command s) <> Raise timed_out_error.
Proof.
  intros Hst Hto Hp Hrc.
  rewrite (run_flagged E command s p Hst Hto Hp), Hrc.
  split; [reflexivity | discriminate].
Qed.

End WithBuiltins.

(** *** The statements at concrete sessions *)

(** A command prints [a] and a newline, then the sentinel line follows:
    the output returned is [a], not what the command printed. *)
Lemma run_output_without_newline :
  str_find _sentinel ("a" ++ newline) = None /\
  stdout_text (H := Demo.builtins) (polls Demo.env_prints_a)
  = ("a" ++ newline) ++ _sentinel ++ newline /\
  exists r s',
    run (H := Demo.builtins) Demo.env_prints_a "Write-Output 'a'" Demo.started
    = (Ok r, s') /\
    output r = Some "a" /\
    output r <> Some ("a" ++ newline).
Proof.
  split; [reflexivity|]. split; [reflexivity|].
  eexists _, _. split; [vm_compute; reflexivity|].
  split; [reflexivity | discriminate].
Qed.

Lemma run_returns_text_before_sentinel_witness :
  ready Demo.started Demo.shell /\
  exists err p',
    run (H := Demo.builtins) Demo.env_two_reads "Write-Output 'a'" Demo.started
    = (Ok (CLIResult "a" err), set_process p' Demo.started).
Proof.
  assert (Hr : ready Demo.started Demo.shell) by (repeat split).
  split; [exact Hr|].
  destruct (run_returns_text_before_sentinel (H := Demo.builtins) Demo.env_two_reads
              "Write-Output 'a'" Demo.started Demo.shell Hr) as [_ Hout].
  destruct (Hout "a" newline eq_refl eq_refl) as (err & p' & Hrun & _).
  exists err, p'. exact Hrun.
Defined.

(** C8.  The code at the failing input.  The budget ends and the process
    is gone when the signal is sent: the session is marked timed out, and
    [run] raises the [ProcessLookupError] of [send_signal] instead of the
    timed-out error the handler was written to raise.  The signal is an
    attempt by the source's own comment, and the [ctrl+c] path of
    [PowerShell.execute] tests [returncode] before it signals. *)
Lemma run_timeout_signal_failure_escapes :
  exists s',
    run (H := Demo.builtins) Demo.env_gone "Start-Sleep 600" Demo.started
    = (Raise (Exn ProcessLookupError ""), s') /\
    _timed_out s' = true /\
    Exn ProcessLookupError "" <> timed_out_error.
Proof.
  eexists. split; [vm_compute; reflexivity|].
  split; [reflexivity | discriminate].
Qed.

Lemma run_timeout_sends_signal_witness :
  ready Demo.started Demo.shell /\
  exists s',
    run (H := Demo.builtins) Demo.env_silent "Start-Sleep 600" Demo.started
    = (Raise timed_out_error, s') /\ _timed_out s' = true.
Proof.
  assert (Hr : ready Demo.started Demo.shell) by (repeat split).
  split; [exact Hr|].
  destruct (run_timeout_sends_signal (H := Demo.builtins) Demo.env_silent
              "Start-Sleep 600" Demo.started Demo.shell Hr eq_refl)
    as (p2 & Hok & _ & _).
  eexists. split; [exact (Hok eq_refl) | reflexivity].
Defined.

(** An instance times out, its process exits, and the next [run] on the
    same instance returns a result instead of failing. *)
Lemma timed_out_run_can_return :
  _timed_out (snd (run (H := Demo.builtins) Demo.env_silent "Start-Sleep 600" Demo.started))
  = true /\
  run (H := Demo.builtins) Demo.env_silent "Get-Date"
      (process_exited 1
         (snd (run (H := Demo.builtins) Demo.env_silent "Start-Sleep 600" Demo.started)))
  = (Ok (restart_required 1),
     process_exited 1
       (snd (run (H := Demo.builtins) Demo.env_silent "Start-Sleep 600" Demo.started))) /\
  fst (run (H := Demo.builtins) Demo.env_silent "Get-Date"
         (process_exited 1
            (snd (run (H := Demo.builtins) Demo.env_silent "Start-Sleep 600" Demo.started))))
  <> Raise timed_out_error.
Proof.
  split; [reflexivity|]. split; [vm_compute; reflexivity|].
  vm_compute. discriminate.
Qed.

Lemma timed_out_is_sticky_witness :
  ready Demo.started Demo.shell /\
  exists r s1,
    run (H := Demo.builtins) Demo.env_silent "Start-Sleep 600" Demo.started = (r, s1) /\
    _timed_out s1 = true /\
    run (H := Demo.builtins) Demo.env_silent "Get-Date" s1 = (Raise timed_out_error, s1).
Proof.
  assert (Hr : ready Demo.started Demo.shell) by (repeat split).
  split; [exact Hr|].
  destruct (timed_out_is_sticky (H := Demo.builtins) Demo.env_silent
              "Start-Sleep 600" Demo.started Demo.shell Hr eq_refl)
    as (r & s1 & Hrun & Hto & Hnext & _).
  exists r, s1. repeat split; [exact Hrun | exact Hto | apply Hnext].
Defined.

Lemma exited_checked_before_timed_out_witness :
  run (H := Demo.builtins) Demo.env_silent "Get-Date" Demo.timed_out_and_exited
  = (Ok {| class := ToolResult_class; output := None;
           error := Some "PowerShell has exited with returncode 1";
           system := Some "tool must be restarted" |}, Demo.timed_out_and_exited).
Proof.
  exact (proj1 (exited_checked_before_timed_out (H := Demo.builtins) Demo.env_silent
                  "Get-Date" Demo.timed_out_and_exited Demo.exited_shell 1%Z
                  eq_refl eq_refl eq_refl eq_refl)).
Defined.

End SessionProofs.

(* ================================================================== *)
(** * Further properties of the agent *)
(* ================================================================== *)

Module AgentExtras.
Import Py ToolCallAgent AgentProofs.

Section WithCollaborators.
Context `{Collaborators}.

Lemma same_settings_refl a : same_settings a a.
Proof. repeat split. Qed.

Lemma same_settings_trans a b c :
  same_settings a b -> same_settings b c -> same_settings a c.
Proof.
  intros (H1 & H2 & H3 & H4 & H5) (G1 & G2 & G3 & G4 & G5).
  repeat split; congruence.
Qed.

(** The loop of [act] writes [messages] and, through the terminating
    tools, [state]. *)
Lemma act_loop_frame cs : forall results a w r a' w',
  act_loop cs results (a, w) = (r, (a', w')) ->
  tool_calls a' = tool_calls a /\ same_settings a a' /\
  (state a' = state a \/ state a' = FINISHED) /\
  (state a = FINISHED -> state a' = FINISHED).
Proof.
  induction cs as [|c cs IH]; intros results a w r a' w' Hloop.
  - cbn in Hloop. inversion Hloop; subst. repeat split; auto.
  - destruct (execute_tool_total c a w) as (o & a1 & w1 & Hex & Ha1).
    cbn [act_loop] in Hloop. unfold bind at 1 in Hloop. rewrite Hex in Hloop.
    unfold bind at 1 in Hloop. unfold add_message at 1, modify at 1 in Hloop.
    cbn [fst snd] in Hloop.
    apply IH in Hloop. destruct Hloop as (Hc & Hs & Hst & Hfin).
    cbn [set_messages tool_calls state] in Hc, Hst, Hfin.
    assert (Hs1 : same_settings a a1) by (destruct Ha1; subst; repeat split).
    assert (Hs2 : same_settings a1 (set_messages (messages a1 ++ [Message.tool_message
                      o (id c) (name (function c))]) a1)) by (repeat split).
    split; [destruct Ha1; subst; exact Hc|].
    split; [exact (same_settings_trans _ _ _ Hs1 (same_settings_trans _ _ _ Hs2 Hs))|].
    destruct Ha1; subst; cbn [set_state state] in *; split; auto.
Qed.

(** X1.  With no pending call, a policy other than [required] and an empty
    Memory, [act] raises [IndexError]: there is no last message to read. *)
Theorem act_on_empty_memory a w :
  tool_calls a = [] -> tool_choices a <> required -> messages a = [] ->
  act (a, w) = (Raise (Exn IndexError "list index out of range"), (a, w)).
Proof.
  intros Hc Hreq Hm. rewrite (act_no_calls a w Hc).
  assert (Hneq : ToolChoice_eqb (tool_choices a) required = false)
    by (destruct (tool_choices a); [reflexivity | reflexivity | congruence]).
  now rewrite Hneq, Hm.
Qed.

(** X2.  Whatever the call and whatever its tool does, [execute_tool]
    leaves Memory, the pending calls and the configuration of the agent as
    they are; of the agent it can only set [state], and only to Finished. *)
Theorem execute_tool_touches_state_only command a w r a' w' :
  execute_tool command (a, w) = (r, (a', w')) ->
  messages a' = messages a /\ tool_calls a' = tool_calls a /\
  same_settings a a' /\ (state a' = state a \/ state a' = FINISHED).
Proof.
  intros Hex. destruct (execute_tool_total command a w) as (o & a1 & w1 & Hex1 & Ha1).
  rewrite Hex1 in Hex. inversion Hex; subst.
  destruct Ha1; subst; repeat split; auto.
Qed.

(** X3.  [act] does not consume the pending calls: after it, returned or
    raised, [tool_calls] and the configuration are what they were. *)
Theorem act_keeps_pending_calls a w r a' w' :
  act (a, w) = (r, (a', w')) ->
  tool_calls a' = tool_calls a /\ same_settings a a'.
Proof.
  intros Hact. destruct (tool_calls a) as [|c cs] eqn:Hc.
  - rewrite (act_no_calls a w Hc) in Hact.
    destruct (ToolChoice_eqb (tool_choices a) required);
      [|destruct (last_item (messages a))];
      inversion Hact; subst; split; auto using same_settings_refl.
  - rewrite (act_pending a w c cs Hc) in Hact.
    destruct (act_loop (c :: cs) [] (a, w)) as [[res|e] [a1 w1]] eqn:Hloop;
      inversion Hact; subst;
      destruct (act_loop_frame _ _ _ _ _ _ _ Hloop) as (Hc' & Hs & _);
      (split; [congruence | exact Hs]).
Qed.

(** X4.  Finished is absorbing: an agent that is Finished stays Finished
    through [execute_tool] and through [act], whatever the calls and
    whatever their tools do. *)
Theorem finished_is_absorbing a w :
  state a = FINISHED ->
  (forall command r a' w',
     execute_tool command (a, w) = (r, (a', w')) -> state a' = FINISHED) /\
  (forall r a' w', act (a, w) = (r, (a', w')) -> state a' = FINISHED).
Proof.
  intros Hfin. split.
  - intros command r a' w' Hex.
    destruct (execute_tool_total command a w) as (o & a1 & w1 & Hex1 & Ha1).
    rewrite Hex1 in Hex. inversion Hex; subst. destruct Ha1; subst; auto.
  - intros r a' w' Hact. destruct (tool_calls a) as [|c cs] eqn:Hc.
    + rewrite (act_no_calls a w Hc) in Hact.
      destruct (ToolChoice_eqb (tool_choices a) required);
        [|destruct (last_item (messages a))]; inversion Hact; subst; assumption.
    + rewrite (act_pending a w c cs Hc) in Hact.
      destruct (act_loop (c :: cs) [] (a, w)) as [[res|e] [a1 w1]] eqn:Hloop;
        inversion Hact; subst;
        destruct (act_loop_frame _ _ _ _ _ _ _ Hloop) as (_ & _ & _ & Hf); auto.
Qed.

(** X5.  The terminating set is matched without regard to case.  When the
    tool of a call has returned, the agent is Finished if some name of the
    set has the same lower-case form as the tool's name, and is left as it
    was if none has. *)
Theorem special_tool_ignores_case command a w args r w' :
  truthy (name (function command)) = true ->
  str_in (name (function command)) (tool_map a) = true ->
  json_loads (payload command) = Some args ->
  execute (name (function command)) args w = (Ok r, w') ->
  ((exists n, In n (special_tool_names a) /\ lower n = lower (name (function command))) ->
   exists obs, execute_tool command (a, w) = (Ok obs, (set_state FINISHED a, w'))) /\
  ((forall n, In n (special_tool_names a) -> lower n <> lower (name (function command))) ->
   exists obs, execute_tool command (a, w) = (Ok obs, (a, w'))).
Proof.
  intros Hn Hk Hj He.
  rewrite (execute_tool_returns command a w args r w' Hn Hk Hj He). split.
  - intros (n & Hin & Hl).
    assert (Hsp : _is_special_tool a (name (function command)) = true).
    { unfold _is_special_tool. apply str_in_In. rewrite <- Hl. now apply in_map. }
    rewrite Hsp. eexists. reflexivity.
  - intros Hno.
    assert (Hsp : _is_special_tool a (name (function command)) = false).
    { unfold _is_special_tool.
      destruct (str_in (lower (name (function command)))
                       (map lower (special_tool_names a))) eqn:Hin; [|reflexivity].
      apply str_in_In in Hin. apply in_map_iff in Hin as (n & Hl & Hin).
      now elim (Hno n Hin). }
    rewrite Hsp. eexists. reflexivity.
Qed.

(** What [execute_tool] does depends on a call through the name of its
    function and its payload only. *)
Lemma execute_tool_ext c1 c2 s :
  name (function c1) = name (function c2) -> payload c1 = payload c2 ->
  execute_tool c1 s = execute_tool c2 s.
Proof.
  intros Hn Hp. unfold execute_tool, execute_tool_try. now rewrite Hn, Hp.
Qed.

(** X6.  A call with empty arguments is executed exactly as the call with
    the empty JSON object for arguments: it is [{}] that goes to
    [json.loads], so a registered tool is run on the parsed empty object
    and its result is observed - an empty argument string is never an
    invalid-JSON error when [{}] parses. *)
Theorem empty_arguments_are_empty_object i nm a w :
  execute_tool {| id := i; function := {| name := nm; arguments := "" |} |} (a, w)
  = execute_tool {| id := i; function := {| name := nm; arguments := "{}" |} |} (a, w) /\
  (forall j r w',
     truthy nm = true -> str_in nm (tool_map a) = true ->
     json_loads "{}" = Some j -> execute nm j w = (Ok r, w') ->
     execute_tool {| id := i; function := {| name := nm; arguments := "" |} |} (a, w)
     = (Ok (if bool_of r then observed nm (str_of r) else no_output nm),
        (if _is_special_tool a nm then set_state FINISHED a else a, w'))).
Proof.
  split.
  - now apply execute_tool_ext.
  - intros j r w' Hn Hk Hj He.
    exact (execute_tool_returns
             {| id := i; function := {| name := nm; arguments := "" |} |}
             a w j r w' Hn Hk Hj He).
Qed.

(** X7.  When the arguments of a call parse and the tool itself raises
    [json.JSONDecodeError], the observation blames the arguments: it is the
    invalid-JSON text, not the tool-problem text. *)
Theorem tool_json_error_blames_arguments command a w args msg w' :
  truthy (name (function command)) = true ->
  str_in (name (function command)) (tool_map a) = true ->
  json_loads (payload command) = Some args ->
  execute (name (function command)) args w = (Raise (Exn JSONDecodeError msg), w') ->
  execute_tool command (a, w)
  = (Ok ("Error: Error parsing arguments for " ++ name (function command)
         ++ ": Invalid JSON format"), (a, w')).
Proof.
  intros Hn Hk Hj He.
  now rewrite (execute_tool_raises command a w args _ w' Hn Hk Hj He).
Qed.

(** *** think *)

Lemma think_is_its_body a w : think (a, w) = think_try (a, w).
Proof.
  unfold think. rewrite think_guard_eq.
  destruct (think_try_total a w) as (b & s' & ->). reflexivity.
Qed.

Lemma record_assistant_eq calls response a1 w1 :
  record_assistant calls response (a1, w1) =
  match calls with
  | [] =>
      (Ok tt,
       (set_messages (messages a1 ++ [Message.assistant_message
          (getattr (resp_content response) (Some "No response generated"))]) a1, w1))
  | _ :: _ =>
      match from_tool_calls (getattr (resp_content response) (Some "")) calls with
      | Ok m => (Ok tt, (set_messages (messages a1 ++ [m]) a1, w1))
      | Raise e => (Raise e, (a1, w1))
      end
  end.
Proof.
  unfold record_assistant, bind, lift, add_message, modify.
  destruct calls as [|c cs]; [reflexivity|].
  destruct (from_tool_calls _ _); reflexivity.
Qed.

(** The next-step prompt, as the list of messages it adds. *)
Lemma prompted_messages a :
  messages (prompted a)
  = (messages a ++ (if truthy (next_step_prompt a)
                    then [Message.user_message (next_step_prompt a)] else []))%list /\
  same_settings a (prompted a) /\ state (prompted a) = state a /\
  tool_calls (prompted a) = tool_calls a.
Proof.
  unfold prompted. destruct (truthy (next_step_prompt a)); cbn.
  - repeat split.
  - rewrite app_nil_r. repeat split.
Qed.

(** X8.  [think] only appends to Memory: the messages it finds stay, in
    order, in front; it adds the next-step prompt as a user message when
    the prompt is not empty - also when the language model then fails -
    and after it at most one more message.  It changes neither the
    configuration nor the state of the agent. *)
Theorem think_appends_to_memory a w b a' w' :
  think (a, w) = (Ok b, (a', w')) ->
  exists rest,
    messages a'
    = (messages a ++ (if truthy (next_step_prompt a)
                      then [Message.user_message (next_step_prompt a)] else [])
                  ++ rest)%list /\
    length rest <= 1 /\ same_settings a a' /\ state a' = state a.
Proof.
  rewrite think_is_its_body, think_try_start.
  destruct (prompted_messages a) as (Hm & Hs & Hst & _).
  destruct (ask_tool _ _ _ _ w) as [[response|e] w1].
  2:{ intros Heq. inversion Heq; subst. eexists [_]. cbn [set_messages messages state].
      rewrite Hm, <- app_assoc. repeat split; auto; apply Hs. }
  cbv zeta. destruct (ToolChoice_eqb (tool_choices a) none).
  - destruct (truthy_opt _); intros Heq; inversion Heq; subst;
      cbn [set_messages set_tool_calls messages state].
    + eexists [_]. rewrite Hm, <- app_assoc. repeat split; auto; apply Hs.
    + exists []. rewrite Hm, app_nil_r. repeat split; auto; apply Hs.
  - rewrite record_assistant_eq.
    destruct (extract_tool_calls response) as [|c cs].
    + intros Heq. inversion Heq; subst. cbn [set_messages set_tool_calls messages state].
      eexists [_]. rewrite Hm, <- app_assoc. repeat split; auto; apply Hs.
    + destruct (from_tool_calls _ _) as [m|e]; intros Heq; inversion Heq; subst;
        cbn [set_messages set_tool_calls messages state];
        eexists [_]; rewrite Hm, <- app_assoc; repeat split; auto; apply Hs.
Qed.

(** X9.  The signal [think] returns, policy by policy.  It is [False] when
    the language model raises.  Otherwise, under [none] it says whether the
    answer has content; under [auto] without tool calls it says the same,
    and with tool calls whether the assistant message could be built; under
    [required] it says whether the assistant message could be built, so it
    is [True] also without any tool call. *)
Theorem think_signal a w r w' :
  ask_tool (messages (prompted a)) (system_msgs a) (tool_map a) (tool_choices a) w
    = (r, w') ->
  fst (think (a, w))
  = Ok (match r with
        | Raise _ => false
        | Ok response =>
            let calls := extract_tool_calls response in
            let has_content := truthy_opt (getattr (resp_content response) None) in
            match tool_choices a with
            | none => has_content
            | auto => if no_calls calls then has_content else message_built calls response
            | required => message_built calls response
            end
        end).
Proof.
  intros Hask. rewrite think_is_its_body, think_try_start, Hask.
  destruct r as [response|e]; [|reflexivity].
  cbv zeta. destruct (tool_choices a) eqn:Hch; cbn [ToolChoice_eqb].
  - destruct (truthy_opt _); reflexivity.
  - rewrite record_assistant_eq. unfold message_built, think_decide.
    destruct (extract_tool_calls response) as [|c cs]; cbn [no_calls ToolChoice_eqb andb negb fst].
    + destruct (truthy_opt _); reflexivity.
    + destruct (from_tool_calls _ _); reflexivity.
  - rewrite record_assistant_eq. unfold message_built, think_decide.
    destruct (extract_tool_calls response) as [|c cs]; cbn [no_calls ToolChoice_eqb andb negb fst].
    + reflexivity.
    + destruct (from_tool_calls _ _); reflexivity.
Qed.

(** X10.  The policy [none] does not keep tools from running.  When the
    answer has content and proposes tool calls, [think] records the content
    alone, stores the proposed calls as pending and signals an action; the
    [act] that follows executes every one of them. *)
Theorem none_policy_still_executes a w response w' text :
  tool_choices a = none ->
  ask_tool (messages (prompted a)) (system_msgs a) (tool_map a) none w
    = (Ok response, w') ->
  extract_tool_calls response <> [] ->
  resp_content response = Present (Some text) ->
  truthy text = true ->
  exists a1,
    think (a, w) = (Ok true, (a1, w')) /\
    tool_calls a1 = extract_tool_calls response /\
    messages a1 = (messages (prompted a)
                   ++ [Message.mk assistant (Some text) None None None])%list /\
    exists obs a2 w2,
      act (a1, w') = (Ok (join (newline ++ newline) obs), (a2, w2)) /\
      length obs = length (extract_tool_calls response) /\
      runs_in_order (extract_tool_calls response) (a1, w') obs (a2, w2).
Proof.
  intros Hnone Hask Hcalls Hcont Htr.
  eexists. split; [|split; [|split]].
  - rewrite think_is_its_body, think_try_start, Hnone, Hask.
    cbv zeta. cbn [ToolChoice_eqb]. rewrite Hcont. cbn [getattr truthy_opt].
    rewrite Htr. reflexivity.
  - reflexivity.
  - reflexivity.
  - destruct (extract_tool_calls response) as [|c cs] eqn:Hc; [congruence|].
    match goal with
    | |- exists obs a2 w2, act (?a1, _) = _ /\ _ =>
        destruct (act_loop_spec (c :: cs) [] a1 w') as (obs & a2 & w2 & Hloop & Hlen & Hrun & _);
        exists obs, a2, w2; repeat split; try assumption;
        rewrite (act_pending a1 w' c cs eq_refl), Hloop; reflexivity
    end.
Qed.

(** X11.  Under [required], an answer without tool calls makes [think]
    record the assistant message and signal an action all the same, and
    the [act] that follows raises the fixed error. *)
Theorem required_without_calls_fails_in_act a w response w' :
  tool_choices a = required ->
  ask_tool (messages (prompted a)) (system_msgs a) (tool_map a) required w
    = (Ok response, w') ->
  extract_tool_calls response = [] ->
  exists a1,
    think (a, w) = (Ok true, (a1, w')) /\
    messages a1 = (messages (prompted a)
                   ++ [Message.assistant_message
                         (getattr (resp_content response) (Some "No response generated"))])%list /\
    act (a1, w') = (Raise (Exn ValueError "Tool calls required but none provided"), (a1, w')).
Proof.
  intros Hreq Hask Hcalls.
  eexists. split; [|split].
  - rewrite think_is_its_body, think_try_start, Hreq, Hask.
    cbv zeta. cbn [ToolChoice_eqb]. rewrite record_assistant_eq, Hcalls.
    reflexivity.
  - reflexivity.
  - rewrite act_no_calls by reflexivity.
    cbn [set_messages tool_choices set_tool_calls].
    destruct (prompted_fields a) as (_ & _ & ->). now rewrite Hreq.
Qed.

(** X12.  Under [auto], an answer with neither tool calls nor content makes
    [think] signal no action, and yet it has recorded an assistant message:
    one without content when the answer has an empty [content] field, the
    text "No response generated" when the answer has no such field. *)
Theorem auto_stall_is_recorded a w response w' :
  tool_choices a = auto ->
  ask_tool (messages (prompted a)) (system_msgs a) (tool_map a) auto w
    = (Ok response, w') ->
  extract_tool_calls response = [] ->
  truthy_opt (getattr (resp_content response) None) = false ->
  exists a1,
    think (a, w) = (Ok false, (a1, w')) /\
    tool_calls a1 = [] /\
    messages a1 = (messages (prompted a)
                   ++ [Message.assistant_message
                         (match resp_content response with
                          | Absent => Some "No response generated"
                          | Present c => c
                          end)])%list.
Proof.
  intros Hauto Hask Hcalls Hcont.
  eexists. split; [|split].
  - rewrite think_is_its_body, think_try_start, Hauto, Hask.
    cbv zeta. cbn [ToolChoice_eqb]. rewrite record_assistant_eq, Hcalls.
    unfold think_decide. cbn [ToolChoice_eqb andb no_calls]. rewrite Hcont.
    reflexivity.
  - reflexivity.
  - cbn [set_messages messages set_tool_calls].
    destruct (resp_content response); reflexivity.
Qed.

End WithCollaborators.

(** *** The statements at concrete agents *)

Lemma act_on_empty_memory_witness :
  act (H := Demo.collaborators) (Demo.agent auto [] [], [])
  = (Raise (Exn IndexError "list index out of range"), (Demo.agent auto [] [], [])).
Proof.
  apply (act_on_empty_memory (H := Demo.collaborators) (Demo.agent auto [] []) []);
    [reflexivity | discriminate | reflexivity].
Defined.

Lemma execute_tool_touches_state_only_witness :
  messages (set_state FINISHED (Demo.agent auto Demo.three_calls []))
  = messages (Demo.agent auto Demo.three_calls []) /\
  tool_calls (set_state FINISHED (Demo.agent auto Demo.three_calls []))
  = tool_calls (Demo.agent auto Demo.three_calls []).
Proof.
  destruct (execute_tool_touches_state_only (H := Demo.collaborators)
              (Demo.call "call_3" "terminate" "{}")
              (Demo.agent auto Demo.three_calls []) []
              (Ok (observed "terminate" "done"))
              (set_state FINISHED (Demo.agent auto Demo.three_calls []))
              ["terminate"] eq_refl) as (Hm & Hc & _).
  split; assumption.
Defined.

Lemma act_keeps_pending_calls_witness :
  tool_calls (fst (snd (act (H := Demo.collaborators)
                            (Demo.agent auto Demo.three_calls [], []))))
  = Demo.three_calls.
Proof.
  exact (proj1 (act_keeps_pending_calls (H := Demo.collaborators)
                  (Demo.agent auto Demo.three_calls []) [] _ _ _ eq_refl)).
Defined.

Lemma finished_is_absorbing_witness :
  state (fst (snd (act (H := Demo.collaborators)
                       (set_state FINISHED (Demo.agent auto Demo.three_calls []), []))))
  = FINISHED.
Proof.
  exact (proj2 (finished_is_absorbing (H := Demo.collaborators)
                  (set_state FINISHED (Demo.agent auto Demo.three_calls [])) [] eq_refl)
               _ _ _ eq_refl).
Defined.

Lemma special_tool_ignores_case_witness :
  exists obs,
    execute_tool (H := Demo.collaborators) (Demo.call "call_1" "terminate" "{}")
                 (Demo.agent_capital, [])
    = (Ok obs, (set_state FINISHED Demo.agent_capital, ["terminate"])).
Proof.
  apply (proj1 (special_tool_ignores_case (H := Demo.collaborators)
                  (Demo.call "call_1" "terminate" "{}") Demo.agent_capital []
                  "{}" "done" ["terminate"] eq_refl eq_refl eq_refl eq_refl)).
  exists "Terminate". split; [left; reflexivity | reflexivity].
Defined.

Lemma empty_arguments_are_empty_object_witness :
  execute_tool (H := Demo.collaborators) (Demo.call "call_1" "echo" "")
               (Demo.agent auto Demo.three_calls [], [])
  = (Ok "Cmd `echo` completed with no output",
     (Demo.agent auto Demo.three_calls [], ["echo"])).
Proof.
  exact (proj2 (empty_arguments_are_empty_object (H := Demo.collaborators)
                  "call_1" "echo" (Demo.agent auto Demo.three_calls []) [])
               "{}" "" ["echo"] eq_refl eq_refl eq_refl eq_refl).
Defined.

Lemma tool_json_error_blames_arguments_witness :
  execute_tool (H := Demo.with_parser) (Demo.call "call_1" "parse" "{}")
               (Demo.agent_with_parser, [])
  = (Ok "Error: Error parsing arguments for parse: Invalid JSON format",
     (Demo.agent_with_parser, [])).
Proof.
  exact (tool_json_error_blames_arguments (H := Demo.with_parser)
           (Demo.call "call_1" "parse" "{}") Demo.agent_with_parser []
           "{}" "Expecting value" [] eq_refl eq_refl eq_refl eq_refl).
Defined.

Lemma think_appends_to_memory_witness :
  exists rest,
    messages (fst (snd (think (H := Demo.collaborators) (Demo.agent_capital, ["echo"]))))
    = ([Message.user_message "What next?"] ++ rest)%list /\
    length rest <= 1.
Proof.
  destruct (think_appends_to_memory (H := Demo.collaborators)
              Demo.agent_capital ["echo"] _ _ _ eq_refl) as (rest & Hm & Hlen & _).
  exists rest. split; [exact Hm | exact Hlen].
Defined.

Lemma think_signal_witness :
  fst (think (H := Demo.answering Demo.answer_text) (Demo.agent required [] [], []))
  = Ok true.
Proof.
  exact (think_signal (H := Demo.answering Demo.answer_text)
           (Demo.agent required [] []) [] _ _ eq_refl).
Defined.

Lemma none_policy_still_executes_witness :
  exists a1 obs a2 w2,
    think (H := Demo.answering Demo.answer_with_call) (Demo.agent none [] [], [])
    = (Ok true, (a1, [])) /\
    act (H := Demo.answering Demo.answer_with_call) (a1, [])
    = (Ok (join (newline ++ newline) obs), (a2, w2)) /\
    length obs = 1.
Proof.
  assert (Hne : extract_tool_calls Demo.answer_with_call <> []) by discriminate.
  destruct (none_policy_still_executes (H := Demo.answering Demo.answer_with_call)
              (Demo.agent none [] []) [] Demo.answer_with_call [] "on it"
              eq_refl eq_refl Hne eq_refl eq_refl)
    as (a1 & Hthink & _ & _ & obs & a2 & w2 & Hact & Hlen & _).
  exists a1, obs, a2, w2. repeat split; assumption.
Defined.

Lemma required_without_calls_fails_in_act_witness :
  exists a1,
    think (H := Demo.answering Demo.answer_text) (Demo.agent required [] [], [])
    = (Ok true, (a1, [])) /\
    act (H := Demo.answering Demo.answer_text) (a1, [])
    = (Raise (Exn ValueError "Tool calls required but none provided"), (a1, [])).
Proof.
  destruct (required_without_calls_fails_in_act (H := Demo.answering Demo.answer_text)
              (Demo.agent required [] []) [] Demo.answer_text []
              eq_refl eq_refl eq_refl) as (a1 & Hthink & _ & Hact).
  exists a1. split; assumption.
Defined.

Lemma auto_stall_is_recorded_witness :
  exists a1,
    think (H := Demo.answering Demo.answer_empty) (Demo.agent auto [] [], [])
    = (Ok false, (a1, [])) /\
    messages a1 = [Message.assistant_message None].
Proof.
  destruct (auto_stall_is_recorded (H := Demo.answering Demo.answer_empty)
              (Demo.agent auto [] []) [] Demo.answer_empty []
              eq_refl eq_refl eq_refl eq_refl) as (a1 & Hthink & _ & Hm).
  exists a1. split; assumption.
Defined.

End AgentExtras.

(* ================================================================== *)
(** * Further properties of the PowerShell session and its adapter *)
(* ================================================================== *)

Module SessionExtras.
Import Py PowerShell SessionProofs.

Section WithBuiltins.
Context `{Builtins}.

(** The read loop only adds reads to what the process has received. *)
Lemma read_loop_interactions rounds : forall output error p,
  exists tail,
    interactions (snd (read_loop rounds output error p)) = (interactions p ++ tail)%list /\
    forallb reads_or_signals tail = true.
Proof.
  induction rounds as [|[so se] rest IH]; intros output error p.
  - exists []. cbn. now rewrite app_nil_r.
  - cbn [read_loop].
    destruct (if nonempty so then str_find _sentinel _ else None).
    + exists [ReadStdout]. split; reflexivity.
    + destruct (IH (if nonempty so then output ++ decode so else output)
                   (if nonempty se then error ++ decode se else error)
                   (interact ReadStderr (interact ReadStdout p))) as (tail & Ht & Hall).
      exists (ReadStdout :: ReadStderr :: tail). split; [|exact Hall].
      rewrite Ht. cbn [interact interactions]. now rewrite <- !app_assoc.
Qed.

(** X13.  [start] is idempotent.  A call that returns leaves the instance
    started, with its timed-out flag as it was, and every further call is
    a no-op that spawns nothing; a call that raises has found the instance
    not started, raises what spawning raised and leaves the instance not
    started. *)
Theorem start_is_idempotent E s r s1 :
  start E s = (r, s1) ->
  (r = Ok tt ->
   _started s1 = true /\ _timed_out s1 = _timed_out s /\
   forall E', start E' s1 = (Ok tt, s1)) /\
  (forall e, r = Raise e -> s1 = s /\ _started s = false /\ spawn E = Raise e).
Proof.
  unfold start. destruct (_started s) eqn:Hst.
  - intros Heq. inversion Heq; subst. split.
    + intros _. repeat split; [assumption|]. intros E'. now rewrite Hst.
    + intros e He. discriminate.
  - destruct (spawn E) as [p|e0]; intros Heq; inversion Heq; subst; split.
    + intros _. repeat split.
    + intros e He. discriminate.
    + intros He. discriminate.
    + intros e He. inversion He; subst. repeat split.
Qed.

(** X14.  [stop] raises on an instance that was not started and does nothing
    when the process has exited.  On a running process it asks once for
    termination and does not wait: the instance is still started and its
    process still counts as running, so a [run] that follows goes on to
    write to it. *)
Theorem stop_does_not_wait E s :
  (_started s = false -> stop E s = (Raise not_started, s)) /\
  (forall p rc, _started s = true -> _process s = Some p -> returncode p = Some rc ->
     stop E s = (Ok tt, s)) /\
  (forall p, ready s p -> terminate_error E = None ->
     stop E s = (Ok tt, set_process (interact Terminate p) s) /\
     ready (set_process (interact Terminate p) s) (interact Terminate p)) /\
  (forall p e, ready s p -> terminate_error E = Some e -> stop E s = (Raise e, s)).
Proof.
  unfold stop. split; [|split; [|split]].
  - now intros ->.
  - intros p rc -> -> ->. reflexivity.
  - intros p (Hst & Hp & Hrc & Hto) Hterm. rewrite Hst, Hp, Hrc, Hterm. cbn [negb].
    split; [reflexivity|]. repeat split; assumption.
  - intros p e (Hst & Hp & Hrc & Hto) Hterm. now rewrite Hst, Hp, Hrc, Hterm.
Qed.

(** X15.  On a session it can use, [run] first writes the command followed
    by the instruction that prints the sentinel, once, and drains; all it
    does to the process after that is read the two pipes and, on timeout,
    send the signal.  It never asks for termination, and the process still
    counts as running afterwards. *)
Theorem run_writes_the_command_once E command s p :
  ready s p ->
  exists r s' p' tail,
    run E command s = (r, s') /\
    _process s' = Some p' /\
    interactions p'
    = (interactions p
       ++ [Write (encode command ++ encode ("; Write-Output '<<exit>>'" ++ newline))%list;
           Drain]
       ++ tail)%list /\
    forallb reads_or_signals tail = true /\
    returncode p' = None.
Proof.
  intros Hr. rewrite (run_ready E command s p Hr).
  pose proof (read_loop_interactions (polls E) "" ""
                (interact Drain (interact (Write (command_bytes command)) p)))
    as (tail & Ht & Hall).
  pose proof (read_loop_returncode (polls E) "" ""
                (interact Drain (interact (Write (command_bytes command)) p))) as Hrc.
  assert (Hnone : returncode p = None) by (now destruct Hr as (_ & _ & ? & _)).
  destruct (read_loop _ _ _ _) as [[[out err]|] p2]; cbn [snd] in Ht, Hrc.
  - eexists _, _, p2, tail. split; [reflexivity|]. split; [reflexivity|].
    split; [|split; [exact Hall | now rewrite Hrc]].
    rewrite Ht. cbn [interact interactions]. now rewrite <- !app_assoc.
  - unfold send_signal. destruct (signal_error E) as [e|].
    + eexists _, _, p2, tail. split; [reflexivity|]. split; [reflexivity|].
      split; [|split; [exact Hall | now rewrite Hrc]].
      rewrite Ht. cbn [interact interactions]. now rewrite <- !app_assoc.
    + eexists _, _, _, (tail ++ [SendSignal (interrupt_signal E)])%list.
      split; [reflexivity|]. split; [reflexivity|].
      split; [|split].
      * cbn [interact interactions]. rewrite Ht. cbn [interact interactions].
        now rewrite <- !app_assoc.
      * rewrite forallb_app, Hall. reflexivity.
      * cbn. now rewrite Hrc.
Qed.

(** X16.  A [run] that returns from a session it could use has returned a
    [CLIResult] with both texts, and leaves the session usable: started,
    not timed out, its process still counting as running.  So commands can
    be run one after the other on one session. *)
Theorem returning_run_keeps_session_usable E command s p r s' :
  ready s p ->
  run E command s = (Ok r, s') ->
  class r = CLIResult_class /\ system r = None /\
  (exists out err, output r = Some out /\ error r = Some err) /\
  exists p', ready s' p'.
Proof.
  intros Hr. rewrite (run_ready E command s p Hr).
  pose proof (read_loop_returncode (polls E) "" ""
                (interact Drain (interact (Write (command_bytes command)) p))) as Hrc.
  destruct Hr as (Hst & Hp & Hnone & Hto).
  destruct (read_loop _ _ _ _) as [[[out err]|] p2]; cbn [snd] in Hrc.
  - intros Heq. inversion Heq; subst. repeat split.
    + eexists _, _. split; reflexivity.
    + exists p2. repeat split; cbn; try assumption. now rewrite Hrc.
  - destruct (send_signal _ _ _); discriminate.
Qed.

(** X17.  What standard error delivers in the round in which the sentinel
    is seen is not read by that [run]: when the first read of standard
    output already holds the sentinel, the error text returned is empty,
    whatever standard error holds, and the output is cut at the sentinel. *)
Theorem sentinel_in_first_read_skips_stderr E command s p stdout_buffer stderr_buffer rest i :
  ready s p ->
  polls E = (stdout_buffer, stderr_buffer) :: rest ->
  str_find _sentinel (buffer_text stdout_buffer) = Some i ->
  exists p',
    run E command s
    = (Ok (CLIResult (strip_newline (str_take i (buffer_text stdout_buffer))) ""),
       set_process p' s) /\
    interactions p'
    = (interactions p ++ [Write (command_bytes command); Drain; ReadStdout])%list.
Proof.
  intros Hr Hpolls Hfind. rewrite (run_ready E command s p Hr), Hpolls.
  rewrite read_loop_round by reflexivity.
  change ("" ++ buffer_text stdout_buffer) with (buffer_text stdout_buffer).
  rewrite Hfind. eexists. split; [reflexivity|].
  cbn [interact interactions]. now rewrite <- !app_assoc.
Qed.

Ltac flags_done := split; intros; cbn in *; congruence.

(** X18.  The two flags of an instance only ever go up: whatever is called
    on it and whether or not its process exits, an instance that is
    started stays started and one that is timed out stays timed out. *)
Theorem flags_only_go_up evs : forall s,
  (_started s = true -> _started (after evs s) = true) /\
  (_timed_out s = true -> _timed_out (after evs s) = true).
Proof.
  assert (Hstep : forall s ev,
            (_started s = true -> _started (step s ev) = true) /\
            (_timed_out s = true -> _timed_out (step s ev) = true)).
  { intros s ev. destruct ev as [E c|E|E|rc]; cbn [step].
    - unfold run. destruct (_started s) eqn:Hst; cbn [negb]; [|flags_done].
      destruct (_process s) as [p|]; [|flags_done].
      destruct (returncode p); [flags_done|].
      destruct (_timed_out s) eqn:Hto; [flags_done|].
      destruct (read_loop _ _ _ _) as [[[out err]|] p2]; [flags_done|].
      destruct (send_signal _ _ _); flags_done.
    - unfold start. destruct (_started s) eqn:Hst; [flags_done|].
      destruct (spawn E); flags_done.
    - unfold stop. destruct (_started s) eqn:Hst; cbn [negb]; [|flags_done].
      destruct (_process s) as [p|]; [|flags_done].
      destruct (returncode p); [flags_done|].
      destruct (terminate_error E); flags_done.
    - unfold process_exited. destruct (_process s); flags_done. }
  unfold after. induction evs as [|ev evs IH]; intros s; [split; auto|].
  cbn [fold_left]. destruct (Hstep s ev) as [H1 H2]. destruct (IH (step s ev)) as [I1 I2].
  split; auto.
Qed.

(** X23.  The output text [run] returns depends on the text standard
    output delivers, not on how the reads cut it into buffers: two runs of
    a command on the same session whose reads add up to the same text, the
    sentinel in it, both return, with the same output text. *)
Theorem output_independent_of_buffering E1 E2 command s p i :
  ready s p ->
  stdout_text (polls E1) = stdout_text (polls E2) ->
  str_find _sentinel (stdout_text (polls E1)) = Some i ->
  exists r1 s1 r2 s2,
    run E1 command s = (Ok r1, s1) /\
    run E2 command s = (Ok r2, s2) /\
    output r1 = output r2 /\
    output r1 = Some (strip_newline (str_take i (stdout_text (polls E1)))).
Proof.
  intros Hr Heq Hfind.
  destruct (read_loop_spec (polls E1) "" ""
              (interact Drain (interact (Write (command_bytes command)) p)) eq_refl)
    as [_ Hsome1].
  destruct (read_loop_spec (polls E2) "" ""
              (interact Drain (interact (Write (command_bytes command)) p)) eq_refl)
    as [_ Hsome2].
  destruct (Hsome1 i Hfind) as (k1 & p1 & _ & _ & _ & Hloop1).
  rewrite Heq in Hfind.
  destruct (Hsome2 i Hfind) as (k2 & p2 & _ & _ & _ & Hloop2).
  rewrite !(run_ready _ command s p Hr), Hloop1, Hloop2.
  eexists _, _, _, _. split; [reflexivity|]. split; [reflexivity|].
  cbn [CLIResult output]. change ("" ++ stdout_text (polls E1)) with (stdout_text (polls E1)).
  change ("" ++ stdout_text (polls E2)) with (stdout_text (polls E2)).
  rewrite Heq. split; reflexivity.
Qed.

(** *** PowerShell.execute *)

(** X19.  Without a command and without [restart], [execute] raises
    "no command provided." - after it has started a session if it had
    none: a shell has then been spawned and is kept, though nothing was
    run. *)
Theorem execute_without_command E :
  (forall s, execute E None false (Some s)
             = (Raise (Exn ToolError "no command provided."), Some s)) /\
  (forall p, spawn E = Ok p ->
     execute E None false None
     = (Raise (Exn ToolError "no command provided."), Some (fresh p))).
Proof.
  split.
  - intros s. reflexivity.
  - intros p Hsp. unfold execute, start, __init__. cbn. now rewrite Hsp.
Qed.

(** X20.  A command that is [ctrl+c] once stripped and put in lower case
    never reaches [run]: nothing is written to the shell and the flags of
    the session are not looked at, so it is answered on a timed-out session
    too.  With a running process the interrupt signal is sent, and a
    failure of [send_signal] is raised; with an exited process the answer
    is "No active process to interrupt.". *)
Theorem ctrl_c_bypasses_run E c s p :
  String.eqb (lower (strip c)) "ctrl+c" = true ->
  _process s = Some p ->
  (returncode p = None -> signal_error E = None ->
   execute E (Some c) false (Some s)
   = (Ok (system_note "Interrupt signal sent to process."),
      Some (set_process (interact (SendSignal (interrupt_signal E)) p) s))) /\
  (forall e, returncode p = None -> signal_error E = Some e ->
   execute E (Some c) false (Some s) = (Raise e, Some s)) /\
  (forall rc, returncode p = Some rc ->
   execute E (Some c) false (Some s)
   = (Ok (system_note "No active process to interrupt."), Some s)).
Proof.
  intros Hc Hp. unfold execute. rewrite Hc, Hp. unfold send_signal. split; [|split].
  - now intros -> ->.
  - now intros e -> ->.
  - now intros rc ->.
Qed.

(** X21.  Once spawning the shell has failed, the adapter holds a session
    that was never started, and nothing recovers it: every later call of
    [execute] - with a command, with [ctrl+c], without a command, and with
    [restart] too, which begins by stopping that session - raises and
    leaves the same session in place. *)
Theorem failed_spawn_is_never_recovered E e command :
  spawn E = Raise e ->
  execute E command false None = (Raise e, Some __init__) /\
  execute E command true None = (Raise e, Some __init__) /\
  forall E' command' restart',
    exists e', execute E' command' restart' (Some __init__) = (Raise e', Some __init__).
Proof.
  intros Hsp. split; [|split].
  - unfold execute, start, __init__. cbn. now rewrite Hsp.
  - unfold execute, start, __init__. cbn. now rewrite Hsp.
  - intros E' command' restart'. unfold execute. destruct restart'.
    + eexists. reflexivity.
    + destruct command' as [c'|]; [|eexists; reflexivity].
      destruct (String.eqb (lower (strip c')) "ctrl+c"); eexists; reflexivity.
Qed.

(** X22.  A restart that could stop the old session, if there was one, and
    spawn a running shell puts a fresh session in place, whatever the old
    one was and whatever command came with the request; on it, a command
    answered by the sentinel within the budget succeeds. *)
Theorem restart_then_command_succeeds E E2 command c2 session p i :
  (session = None \/ exists s s0, session = Some s /\ stop E s = (Ok tt, s0)) ->
  spawn E = Ok p -> returncode p = None ->
  String.eqb (lower (strip c2)) "ctrl+c" = false ->
  str_find _sentinel (stdout_text (polls E2)) = Some i ->
  execute E command true session
  = (Ok (system_note "tool has been restarted."), Some (fresh p)) /\
  exists err p',
    execute E2 (Some c2) false (Some (fresh p))
    = (Ok (CLIResult (strip_newline (str_take i (stdout_text (polls E2)))) err),
       Some (set_process p' (fresh p))).
Proof.
  intros Hold Hsp Hrc Hc Hfind. split.
  - unfold execute. destruct Hold as [-> | (s & s0 & -> & Hstop)].
    + unfold start, __init__. cbn. now rewrite Hsp.
    + rewrite Hstop. unfold start, __init__. cbn. now rewrite Hsp.
  - assert (Hr : ready (fresh p) p) by (repeat split; assumption).
    destruct (read_loop_spec (polls E2) "" ""
                (interact Drain (interact (Write (command_bytes c2)) p)) eq_refl)
      as [_ Hsome].
    destruct (Hsome i Hfind) as (k & p' & _ & _ & _ & Hloop).
    eexists _, p'. unfold execute. rewrite Hc.
    rewrite (run_ready E2 c2 (fresh p) p Hr), Hloop. reflexivity.
Qed.

End WithBuiltins.

(** *** The statements at concrete sessions *)

Lemma start_is_idempotent_witness :
  _started (fresh Demo.shell) = true /\
  forall E', start E' (fresh Demo.shell) = (Ok tt, fresh Demo.shell).
Proof.
  destruct (start_is_idempotent Demo.env_silent __init__ (Ok tt) (fresh Demo.shell) eq_refl)
    as [Hok _].
  destruct (Hok eq_refl) as (Hst & _ & Hagain). split; assumption.
Defined.

Lemma stop_does_not_wait_witness :
  ready Demo.started Demo.shell /\
  ready (set_process (interact Terminate Demo.shell) Demo.started)
        (interact Terminate Demo.shell).
Proof.
  assert (Hr : ready Demo.started Demo.shell) by (repeat split).
  split; [exact Hr|].
  destruct (stop_does_not_wait Demo.env_silent Demo.started) as (_ & _ & Hlive & _).
  exact (proj2 (Hlive Demo.shell Hr eq_refl)).
Defined.

Lemma run_writes_the_command_once_witness :
  ready Demo.started Demo.shell /\
  exists r s' p' tail,
    run (H := Demo.builtins) Demo.env_two_reads "Get-Date" Demo.started = (r, s') /\
    _process s' = Some p' /\
    interactions p'
    = ([Write (Demo.encode "Get-Date"
               ++ Demo.encode ("; Write-Output '<<exit>>'" ++ newline))%list; Drain]
       ++ tail)%list.
Proof.
  assert (Hr : ready Demo.started Demo.shell) by (repeat split).
  split; [exact Hr|].
  destruct (run_writes_the_command_once (H := Demo.builtins) Demo.env_two_reads
              "Get-Date" Demo.started Demo.shell Hr)
    as (r & s' & p' & tail & Hrun & Hp & Hi & _).
  exists r, s', p', tail. repeat split; assumption.
Defined.

Lemma returning_run_keeps_session_usable_witness :
  ready Demo.started Demo.shell /\
  exists p',
    ready (snd (run (H := Demo.builtins) Demo.env_prints_a "Write-Output 'a'" Demo.started))
          p'.
Proof.
  assert (Hr : ready Demo.started Demo.shell) by (repeat split).
  split; [exact Hr|].
  destruct (returning_run_keeps_session_usable (H := Demo.builtins) Demo.env_prints_a
              "Write-Output 'a'" Demo.started Demo.shell _ _ Hr eq_refl)
    as (_ & _ & _ & Hready).
  exact Hready.
Defined.

Lemma sentinel_in_first_read_skips_stderr_witness :
  exists p',
    run (H := Demo.builtins)
        (Demo.env [(Demo.encode ("a" ++ newline ++ "<<exit>>" ++ newline),
                    Demo.encode "warning: lost")] None)
        "Write-Output 'a'" Demo.started
    = (Ok (CLIResult "a" ""), set_process p' Demo.started).
Proof.
  assert (Hr : ready Demo.started Demo.shell) by (repeat split).
  destruct (sentinel_in_first_read_skips_stderr (H := Demo.builtins)
              (Demo.env [(Demo.encode ("a" ++ newline ++ "<<exit>>" ++ newline),
                          Demo.encode "warning: lost")] None)
              "Write-Output 'a'" Demo.started Demo.shell _ _ [] 2 Hr eq_refl eq_refl)
    as (p' & Hrun & _).
  exists p'. exact Hrun.
Defined.

Lemma output_independent_of_buffering_witness :
  ready Demo.started Demo.shell /\
  exists r1 s1 r2 s2,
    run (H := Demo.builtins) Demo.env_two_reads "Write-Output 'a'" Demo.started
    = (Ok r1, s1) /\
    run (H := Demo.builtins) (Demo.env [(Demo.encode ("a<<exit>>" ++ newline), [])] None)
        "Write-Output 'a'" Demo.started
    = (Ok r2, s2) /\
    output r1 = output r2 /\ output r1 = Some "a".
Proof.
  assert (Hr : ready Demo.started Demo.shell) by (repeat split).
  split; [exact Hr|].
  exact (output_independent_of_buffering (H := Demo.builtins) Demo.env_two_reads
           (Demo.env [(Demo.encode ("a<<exit>>" ++ newline), [])] None)
           "Write-Output 'a'" Demo.started Demo.shell 1 Hr eq_refl eq_refl).
Defined.

Lemma flags_only_go_up_witness :
  _timed_out (after (H := Demo.builtins)
                [Stop Demo.env_silent; Run Demo.env_prints_a "Get-Date";
                 Exited 1; Start Demo.env_silent]
                Demo.timed_out_session) = true.
Proof.
  exact (proj2 (flags_only_go_up (H := Demo.builtins)
                  [Stop Demo.env_silent; Run Demo.env_prints_a "Get-Date";
                   Exited 1; Start Demo.env_silent]
                  Demo.timed_out_session) eq_refl).
Defined.

Lemma execute_without_command_witness :
  execute (H := Demo.builtins) Demo.env_silent None false None
  = (Raise (Exn ToolError "no command provided."), Some (fresh Demo.shell)).
Proof.
  exact (proj2 (execute_without_command (H := Demo.builtins) Demo.env_silent)
               Demo.shell eq_refl).
Defined.

Lemma ctrl_c_bypasses_run_witness :
  execute (H := Demo.builtins) Demo.env_silent (Some "  Ctrl+C ") false
          (Some Demo.timed_out_session)
  = (Ok (system_note "Interrupt signal sent to process."),
     Some (set_process (interact (SendSignal SIGINT) Demo.shell) Demo.timed_out_session)).
Proof.
  exact (proj1 (ctrl_c_bypasses_run (H := Demo.builtins) Demo.env_silent "  Ctrl+C "
                  Demo.timed_out_session Demo.shell eq_refl eq_refl) eq_refl eq_refl).
Defined.

Lemma failed_spawn_is_never_recovered_witness :
  execute (H := Demo.builtins) Demo.env_no_shell (Some "Get-Date") false None
  = (Raise (Exn OSError "powershell.exe: not found"), Some __init__) /\
  exists e',
    execute (H := Demo.builtins) Demo.env_silent None true (Some __init__)
    = (Raise e', Some __init__).
Proof.
  destruct (failed_spawn_is_never_recovered (H := Demo.builtins) Demo.env_no_shell
              (Exn OSError "powershell.exe: not found") (Some "Get-Date") eq_refl)
    as (Hfirst & _ & Hlater).
  split; [exact Hfirst | exact (Hlater Demo.env_silent None true)].
Defined.

Lemma restart_then_command_succeeds_witness :
  execute (H := Demo.builtins) Demo.env_silent None true (Some Demo.timed_out_and_exited)
  = (Ok (system_note "tool has been restarted."), Some (fresh Demo.shell)) /\
  exists err p',
    execute (H := Demo.builtins) Demo.env_prints_a (Some "Write-Output 'a'") false
            (Some (fresh Demo.shell))
    = (Ok (CLIResult "a" err), Some (set_process p' (fresh Demo.shell))).
Proof.
  apply (restart_then_command_succeeds (H := Demo.builtins) Demo.env_silent
           Demo.env_prints_a None "Write-Output 'a'" (Some Demo.timed_out_and_exited)
           Demo.shell 2);
    [right; exists Demo.timed_out_and_exited, Demo.timed_out_and_exited; split; reflexivity
    | reflexivity | reflexivity | reflexivity | reflexivity].
Defined.

End SessionExtras.
